(** * tools/validate-commit.py: the commit validator, embedded and verified

    The script checks one commit's author name, author email and message
    body.  Its functions are embedded below one by one, in the order of the
    source file, over a small model of the Python [str] operations they use.

    A Python 3 [str] is modelled as a list of characters; a character is a
    code point below 256 (Rocq's [ascii], read as Latin-1), and the character
    classes ([isspace], [isdigit], [lower], line boundaries) are the ones
    Python 3 has on that range. *)

From Stdlib Require Import String Ascii.
From Stdlib Require Import List Bool Arith ZArith Lia.
From Equations Require Import Equations.
Import ListNotations.

(* [length] is the list's throughout, not [String.length]. *)
Local Abbreviation length := Datatypes.length (only parsing).

Local Open Scope list_scope.
Local Open Scope bool_scope.

(** ** Python strings *)

Module PyStr.

Definition str := list ascii.

(** A literal of the source. *)
Definition lit (s : String.string) : str := String.list_ascii_of_string s.
Arguments lit s%_string.

Definition LF : ascii := "010"%char.
Definition CR : ascii := "013"%char.
Definition DQUOTE : ascii := "034"%char.

Definition ord (c : ascii) : nat := nat_of_ascii c.

Definition between (lo hi n : nat) : bool := (lo <=? n) && (n <=? hi).

(** [c.isspace()]: TAB..CR, FS..US, SPACE, NEL and NBSP. *)
Definition isspace_char (c : ascii) : bool :=
  let n := ord c in
  between 9 13 n || between 28 31 n || (n =? 32) || (n =? 133) || (n =? 160).

(** [c.isdigit()]: 0..9 and the superscripts two, three and one. *)
Definition isdigit_char (c : ascii) : bool :=
  let n := ord c in
  between 48 57 n || (n =? 178) || (n =? 179) || (n =? 185).

(** Line boundaries of [str.splitlines]: LF, VT, FF, CR, FS, GS, RS, NEL. *)
Definition islinebreak (c : ascii) : bool :=
  let n := ord c in
  between 10 13 n || between 28 30 n || (n =? 133).

(** [c.lower()]: A..Z and the Latin-1 capitals move up by 32. *)
Definition lower_char (c : ascii) : ascii :=
  let n := ord c in
  if between 65 90 n || between 192 214 n || between 216 222 n
  then ascii_of_nat (n + 32) else c.

Definition lower (s : str) : str := map lower_char s.

(** [s.isdigit()]: at least one character, and all of them digits. *)
Definition isdigit (s : str) : bool :=
  match s with
  | [] => false
  | _ :: _ => forallb isdigit_char s
  end.

(** [s.lstrip(chars)] and [s.rstrip(chars)], the character set given as a
    predicate. *)
Fixpoint lstrip_by (p : ascii -> bool) (s : str) : str :=
  match s with
  | [] => []
  | c :: s' => if p c then lstrip_by p s' else s
  end.

Fixpoint rstrip_by (p : ascii -> bool) (s : str) : str :=
  match s with
  | [] => []
  | c :: s' =>
      match rstrip_by p s' with
      | [] => if p c then [] else [c]
      | r => c :: r
      end
  end.

(** [s.strip()] *)
Definition strip (s : str) : str := lstrip_by isspace_char (rstrip_by isspace_char s).

Definition is_crlf (c : ascii) : bool := Ascii.eqb c CR || Ascii.eqb c LF.

(** [p == s] on strings. *)
Fixpoint str_eqb (p s : str) : bool :=
  match p, s with
  | [], [] => true
  | a :: p', b :: s' => Ascii.eqb a b && str_eqb p' s'
  | _, _ => false
  end.

(** [s.startswith(p)] *)
Fixpoint startswith (p s : str) : bool :=
  match p, s with
  | [], _ => true
  | a :: p', b :: s' => Ascii.eqb a b && startswith p' s'
  | _ :: _, [] => false
  end.

(** [s.endswith(p)]: the last [len(p)] characters of [s] are [p]. *)
Definition endswith (p s : str) : bool :=
  (length p <=? length s) && str_eqb (skipn (length s - length p) s) p.

(** [sub in s] *)
Fixpoint contains (sub s : str) : bool :=
  startswith sub s ||
  match s with
  | [] => false
  | _ :: s' => contains sub s'
  end.

(** [s.split(sep)] for a one-character separator. *)
Fixpoint split (sep : ascii) (s : str) : list str :=
  match s with
  | [] => [[]]
  | c :: s' =>
      if Ascii.eqb c sep then [] :: split sep s'
      else match split sep s' with
           | p :: ps => (c :: p) :: ps
           | [] => [[c]]
           end
  end.

(** [s.split(sep, maxsplit)] for a one-character separator. *)
Fixpoint split_max (sep : ascii) (maxsplit : nat) (s : str) {struct s} : list str :=
  match maxsplit with
  | 0 => [s]
  | S m =>
      match s with
      | [] => [[]]
      | c :: s' =>
          if Ascii.eqb c sep then [] :: split_max sep m s'
          else match split_max sep (S m) s' with
               | p :: ps => (c :: p) :: ps
               | [] => [[c]]
               end
      end
  end.

(** [s.splitlines(True)]: the lines of [s], each with its line ending; CR LF
    is one ending, and a last line needs none. *)
Fixpoint splitlines_from (cur : str) (s : str) : list str :=
  match s with
  | [] => match cur with [] => [] | _ => [rev cur] end
  | c :: s' =>
      if islinebreak c then
        match s' with
        | d :: s'' =>
            if Ascii.eqb c CR && Ascii.eqb d LF
            then rev (d :: c :: cur) :: splitlines_from [] s''
            else rev (c :: cur) :: splitlines_from [] s'
        | [] => [rev (c :: cur)]
        end
      else splitlines_from (c :: cur) s'
  end.

Definition splitlines (s : str) : list str := splitlines_from [] s.

(** An index of a slice, as Python clamps it: a negative one counts from the end. *)
Definition slice_index (n i : Z) : Z :=
  if (i <? 0)%Z then Z.max 0 (n + i) else Z.min n i.

(** [s[start:stop]] *)
Definition slice (s : str) (start stop : Z) : str :=
  let n := Z.of_nat (length s) in
  let lo := slice_index n start in
  let hi := slice_index n stop in
  firstn (Z.to_nat (hi - lo)) (skipn (Z.to_nat lo) s).

(** [''.join(parts)] *)
Definition join (parts : list str) : str := List.concat parts.

(** [s in names] for a tuple of strings. *)
Definition str_in (s : str) (names : list str) : bool := existsb (str_eqb s) names.

(** The lines of a text of the source, each ended by a newline. *)
Definition text_of_lines (lines : list str) : str :=
  List.concat (map (fun l => l ++ [LF]) lines).

End PyStr.

Import PyStr.

(** ** Effects: output, subprocesses and exceptions *)

(** The exceptions the script can meet; [OSError] and [CalledProcessError]
    carry what [str(ex)] gives. *)
Inductive exn : Type :=
| ValueError
| IndexError
| OSError (msg : str)
| CalledProcessError (returncode : Z) (msg : str)
| KeyboardInterrupt.

Inductive outcome (A : Type) : Type :=
| Return (a : A)
| Raise (e : exn).
Arguments Return {A} a.
Arguments Raise {A} e.

(** What a run does that can be observed: a [print], a write to standard
    error, a subprocess started (with what it is fed on standard input), and
    the interpreter's report of an exception nobody caught. *)
Inductive event : Type :=
| Stdout (text : str)
| Stderr (text : str)
| Spawn (cmd : list str) (input : option str)
| Traceback (e : exn).

(** A computation: the events so far, and a value or the exception raised. *)
Definition run (A : Type) : Type := list event * outcome A.

Definition ret {A} (a : A) : run A := ([], Return a).
Definition raise {A} (e : exn) : run A := ([], Raise e).
Definition emit (e : event) : run unit := ([e], Return tt).

Definition bind {A B} (m : run A) (k : A -> run B) : run B :=
  match m with
  | (out, Return a) => let (out', r) := k a in (out ++ out', r)
  | (out, Raise e) => (out, Raise e)
  end.

Notation "'let!' x ':=' m 'in' k" := (bind m (fun x => k))
  (at level 10, x pattern, m at level 100, k at level 200).
Notation "m ;; k" := (bind m (fun _ => k))
  (at level 100, k at level 200, right associativity).

Definition output {A} (m : run A) : list event := fst m.
Definition result {A} (m : run A) : outcome A := snd m.

(** [print(text)] and [sys.stderr.write(text)] *)
Definition print (text : str) : run unit := emit (Stdout text).
Definition stderr_write (text : str) : run unit := emit (Stderr text).

(** [if cond: body] *)
Definition when (cond : bool) (body : run unit) : run unit :=
  if cond then body else ret tt.

(** [try: body  except OSError as ex: handler(ex)] *)
Definition try_except_OSError {A} (body : run A) (handler : str -> run A) : run A :=
  match body with
  | (out, Raise (OSError ex)) => let (out', r) := handler ex in (out ++ out', r)
  | _ => body
  end.

(** [l[i]] *)
Definition getitem {A} (l : list A) (i : nat) : run A :=
  match nth_error l i with
  | Some x => ret x
  | None => raise IndexError
  end.

(** [a, b, c, d = parts] *)
Definition unpack4 (parts : list str) : run (str * str * str * str) :=
  match parts with
  | [a; b; c; d] => ret (a, b, c, d)
  | _ => raise ValueError
  end.

(** ** The script *)

Definition print_git_user_instructions : run unit :=
  print (lit "To configure your name and email for git, run:") ;;
  print (lit "") ;;
  print (lit "  git config --global user.name " ++ [DQUOTE] ++ lit "Your Name" ++ [DQUOTE]) ;;
  print (lit "  git config --global user.email " ++ [DQUOTE] ++ lit "you@example.com" ++ [DQUOTE]) ;;
  print (lit "") ;;
  print (lit "After that update the author of your latest commit with:") ;;
  print (lit "") ;;
  print (lit "  git commit --amend --reset-author --no-edit") ;;
  print (lit "").

Definition forbidden_names : list str :=
  [lit "unknown"; lit "root"; lit "user"; lit "your name"].

Definition verify_name (name : str) : run bool :=
  let name := strip (lower name) in
  if str_in name forbidden_names then ret false
  else
    when (negb (contains (lit " ") name))
      (print (lit "WARNING: name '" ++ name ++ lit "' does not contain a space.") ;;
       print_git_user_instructions) ;;
    ret true.

(** [user, host = email.split('@')] raises ValueError, caught on the spot,
    unless the split has exactly two parts. *)
Definition verify_email (email : str) : bool :=
  let email := strip (lower email) in
  match split "@" email with
  | [user; host] =>
      let tld := last (split "." host) [] in
      if contains (lit "local") tld then false
      else if isdigit tld then false
      else if endswith (lit ".wireshark.org") host then false
      else if str_eqb host (lit "example.com") then false
      else if contains (lit "(none)") host then false
      else true
  | _ => false
  end.

Definition prefix : str := lit "Revert " ++ [DQUOTE].
Definition suffix : str := [DQUOTE].

(** The condition of the loop of [extract_subject]. *)
Definition wrapped (subject : str) : bool :=
  startswith prefix subject && endswith suffix subject.

(** [subject[len(prefix):-len(suffix)]] *)
Definition unwrap_once (subject : str) : str :=
  slice subject (Z.of_nat (length prefix)) (- Z.of_nat (length suffix)).

(** The loop of [extract_subject]: every turn makes the subject shorter. *)
Equations? unwrap (subject : str) : str by wf (length subject) lt :=
  unwrap subject with Logic.inspect (wrapped subject) := {
    | exist _ true _ := unwrap (unwrap_once subject);
    | exist _ false _ := subject }.
Proof.
  unfold wrapped, endswith, suffix in e.
  apply andb_prop in e as [_ e]. apply andb_prop in e as [e _].
  apply Nat.leb_le in e. cbn [length] in e.
  unfold unwrap_once, slice. rewrite length_firstn, length_skipn.
  unfold slice_index. cbn. lia.
Qed.

Definition extract_subject (subject : str) : str :=
  let subject := rstrip_by is_crlf subject in
  unwrap subject.

Definition format_guidance : str :=
  text_of_lines
    [lit "";
     lit "Please rewrite your commit message to our standards, matching this format:";
     lit "";
     lit "    component: a very brief summary of the change";
     lit "";
     lit "    A commit message should start with a brief summary, followed by a single";
     lit "    blank line and an optional longer description. If the change is specific to";
     lit "    a single protocol, start the summary line with the abbreviated name of the";
     lit "    protocol and a colon.";
     lit "";
     lit "    Use paragraphs to improve readability. Limit each line to 80 characters.";
     lit ""].

Definition issue_guidance : str :=
  text_of_lines
    [lit "";
     lit "To close an issue, use " ++ [DQUOTE] ++ lit "Closes #1234" ++ [DQUOTE]
       ++ lit " or " ++ [DQUOTE] ++ lit "Fixes #1234" ++ [DQUOTE]
       ++ lit " instead of " ++ [DQUOTE] ++ lit "Bug: 1234" ++ [DQUOTE] ++ lit ".";
     lit "To reference an issue, use " ++ [DQUOTE] ++ lit "related to #1234" ++ [DQUOTE]
       ++ lit " instead of " ++ [DQUOTE] ++ lit "Ping-Bug: 1234" ++ [DQUOTE] ++ lit ". See";
     lit "https://docs.gitlab.com/ee/user/project/issues/managing_issues.html#closing-issues-automatically";
     lit "for details."].

(** [line.startswith('Bug:') or line.startswith('Ping-Bug:')] *)
Definition issue_line (line : str) : bool :=
  startswith (lit "Bug:") line || startswith (lit "Ping-Bug:") line.

(** [len(line) > 2 and line[-2].isspace()] *)
Definition trailing_space (line : str) : bool :=
  (2 <? length line) && isspace_char (nth (length line - 2) line " "%char).

(** The comment put before a line of the diff that ends in white space. *)
Definition mark_trailing_space (line : str) : str :=
  if trailing_space line
  then lit "# NOTE: trailing space on the next line" ++ [LF] ++ line
  else line.

Definition stripspace_cmd : list str := [lit "git"; lit "stripspace"].

Definition show_cmd (commit : str) : list str :=
  [lit "git"; lit "show"; lit "--no-patch"; lit "--format=%h%n%an%n%ae%n%B"; commit; lit "--"].

(** [if output.endswith('\n\n'): output = output[:-1]] *)
Definition drop_extra_lf (output : str) : str :=
  if endswith [LF; LF] output then slice output 0 (-1) else output.

Section Script.

(** The world outside the script: [subprocess.check_output(cmd)], a [Popen]
    of [cmd] fed [input] and read to the end, [difflib.unified_diff], and the
    path the script was started under. *)
Variable check_output : list str -> outcome str.
Variable communicate : list str -> str -> outcome str.
Variable unified_diff : list str -> list str -> str -> str -> list str.
Variable script_file : str.

Definition run_check_output (cmd : list str) : run str :=
  ([Spawn cmd None], check_output cmd).

Definition run_communicate (cmd : list str) (input : str) : run str :=
  ([Spawn cmd (Some input)], communicate cmd input).

(** The first two checks of [verify_body], up to the guidance printed when
    one of them failed: the value is [is_good]. *)
Definition format_checks (old_lines : list str) : run bool :=
  let is_good := true in
  let! is_good :=
    if (2 <=? length old_lines) && negb (str_eqb (strip (nth 1 old_lines [])) [])
    then print (lit "ERROR: missing blank line after the first subject line.") ;; ret false
    else ret is_good in
  let! first_line := getitem old_lines 0 in
  let cleaned_subject := extract_subject first_line in
  let! is_good :=
    if 80 <? length cleaned_subject
    then print (lit "Warning: keep lines in the commit message under 80 characters.") ;; ret false
    else ret is_good in
  when (negb is_good) (print format_guidance) ;;
  ret is_good.

(** The comparison with what [git stripspace] makes of the body: the [try]
    covers the subprocess alone, and its handler returns [is_good] from
    [verify_body] ([inr]); otherwise the new body goes on ([inl]). *)
Definition stripspace_check (body : str) (old_lines : list str) (is_good : bool) : run bool :=
  let! tried :=
    try_except_OSError
      (let! newbody := run_communicate stripspace_cmd body in
       ret (inl newbody))
      (fun ex =>
         print (lit "Warning: unable to invoke git stripspace: " ++ ex) ;;
         ret (inr is_good)) in
  match tried with
  | inr returned => ret returned
  | inl newbody =>
      if negb (str_eqb newbody body) then
        let new_lines := splitlines newbody in
        let diff := unified_diff old_lines new_lines
                      (lit "OLD/.git/COMMIT_EDITMSG") (lit "NEW/.git/COMMIT_EDITMSG") in
        let diff := map mark_trailing_space diff in
        print (lit "The commit message does not follow our standards.") ;;
        print (lit "Please rewrite it (there are likely whitespace issues):") ;;
        print (lit "") ;;
        print (join diff) ;;
        ret false
      else ret is_good
  end.

Definition verify_body (body : str) : run bool :=
  let old_lines := splitlines body in
  let! is_good := format_checks old_lines in
  if existsb issue_line old_lines then
    stderr_write issue_guidance ;;
    ret false
  else stripspace_check body old_lines is_good.

(** The query of [main] and the parsing of its output. *)
Definition fetch_commit (commit : str) : run (str * str * str * str) :=
  let! output := run_check_output (show_cmd commit) in
  let output := drop_extra_lf output in
  unpack4 (split_max LF 3 output).

Definition main (commit : str) : run Z :=
  let! (abbrev, author_name, author_email, body) := fetch_commit commit in
  let subject := hd [] (split_max LF 1 body) in
  when (endswith (lit ".py") script_file)
    (print (lit "Checking commit: " ++ abbrev ++ lit " " ++ subject)) ;;
  let exit_code := 0%Z in
  let! name_ok := verify_name author_name in
  let! exit_code :=
    if negb name_ok
    then print (lit "Disallowed author name: " ++ author_name) ;; ret 1%Z
    else ret exit_code in
  let! exit_code :=
    if negb (verify_email author_email)
    then print (lit "Disallowed author email address: " ++ author_email) ;; ret 1%Z
    else ret exit_code in
  when (negb (exit_code =? 0)%Z) print_git_user_instructions ;;
  let! body_ok := verify_body body in
  let exit_code := if negb body_ok then 1%Z else exit_code in
  ret exit_code.

(** The script run as a program: the output, and the exit status. *)
Definition script (commit : str) : list event * Z :=
  match main commit with
  | (out, Return exit_code) => (out, exit_code)
  | (out, Raise (CalledProcessError returncode msg)) =>
      (out ++ [Stdout ([LF] ++ msg)], returncode)
  | (out, Raise KeyboardInterrupt) => (out, 130%Z)
  | (out, Raise e) => (out ++ [Traceback e], 1%Z)
  end.

End Script.

(** * Properties *)

(** ** What the string operations compute *)

Module PyStrFacts.

Definition starts_with (p s : str) : Prop := exists t, s = p ++ t.
Definition ends_with (p s : str) : Prop := exists t, s = t ++ p.
Definition has_substring (sub s : str) : Prop := exists a b, s = a ++ sub ++ b.

Lemma str_eqb_spec (a b : str) : str_eqb a b = true <-> a = b.
Proof.
  revert b. induction a as [|x a IH]; intros [|y b]; simpl; split; try easy.
  - intros H. apply andb_prop in H as [Hxy Hab].
    apply Ascii.eqb_eq in Hxy. apply IH in Hab. congruence.
  - intros H. injection H as -> ->.
    rewrite Ascii.eqb_refl. simpl. now apply IH.
Qed.

Lemma str_eqb_refl (a : str) : str_eqb a a = true.
Proof. now apply str_eqb_spec. Qed.

Lemma str_eqb_neq (a b : str) : str_eqb a b = false <-> a <> b.
Proof.
  split.
  - intros H E. apply str_eqb_spec in E. congruence.
  - intros H. destruct (str_eqb a b) eqn:E; [|reflexivity].
    apply str_eqb_spec in E. contradiction.
Qed.

Lemma startswith_spec (p s : str) : startswith p s = true <-> starts_with p s.
Proof.
  unfold starts_with. revert s. induction p as [|x p IH]; intros s; simpl.
  - split; [intros _; now exists s | reflexivity].
  - destruct s as [|y s].
    + split; [discriminate | intros [t H]; discriminate].
    + split.
      * intros H. apply andb_prop in H as [Hxy Hp].
        apply Ascii.eqb_eq in Hxy. apply IH in Hp as [t ->]. exists t. now subst.
      * intros [t H]. injection H as -> ->.
        rewrite Ascii.eqb_refl. simpl. apply IH. now exists t.
Qed.

Lemma endswith_spec (p s : str) : endswith p s = true <-> ends_with p s.
Proof.
  unfold endswith, ends_with. split.
  - intros H. apply andb_prop in H as [Hlen Heq].
    apply str_eqb_spec in Heq. remember (length s - length p) as n.
    exists (firstn n s). rewrite <- Heq. symmetry. apply firstn_skipn.
  - intros [t ->]. rewrite length_app.
    replace (length t + length p - length p) with (length t + 0) by lia.
    rewrite skipn_app, Nat.add_0_r, skipn_all. simpl.
    replace (length t - length t) with 0 by lia. simpl.
    rewrite str_eqb_refl, andb_true_r. apply Nat.leb_le. lia.
Qed.

Lemma contains_spec (sub s : str) : contains sub s = true <-> has_substring sub s.
Proof.
  unfold has_substring. induction s as [|c s IH].
  - simpl. rewrite orb_false_r, startswith_spec. split.
    + intros [t H]. exists [], t. exact H.
    + intros (a & b & H). destruct a; [now exists b|discriminate].
  - simpl. rewrite orb_true_iff, startswith_spec, IH. split.
    + intros [[t H] | (a & b & H)].
      * exists [], t. exact H.
      * exists (c :: a), b. simpl. now rewrite H.
    + intros (a & b & H). destruct a as [|x a].
      * left. now exists b.
      * right. injection H as -> ->. now exists a, b.
Qed.

Lemma contains_char (c : ascii) (s : str) : contains [c] s = true <-> In c s.
Proof.
  rewrite contains_spec. split.
  - intros (a & b & ->). apply in_or_app. right. now left.
  - intros H. apply in_split in H as (a & b & ->). now exists a, b.
Qed.

(** [split]: never empty; its first part has no separator and is followed by
    nothing, or by a separator and the parts of the rest. *)
Lemma split_nonempty (sep : ascii) (s : str) : split sep s <> [].
Proof.
  destruct s as [|c s]; simpl; [easy|].
  destruct (Ascii.eqb c sep); [easy|]. now destruct (split sep s).
Qed.

Lemma split_cons_inv (sep : ascii) (s p : str) (ps : list str) :
  split sep s = p :: ps ->
  ~ In sep p /\
  ((ps = [] /\ s = p) \/ (exists h, s = p ++ sep :: h /\ split sep h = ps)).
Proof.
  revert p ps. induction s as [|c s IH]; intros p ps; simpl.
  - intros H. injection H as <- <-. split; [easy | now left].
  - destruct (Ascii.eqb c sep) eqn:E.
    + apply Ascii.eqb_eq in E. subst c. intros H. injection H as <- <-.
      split; [easy|]. right. now exists s.
    + apply Ascii.eqb_neq in E.
      destruct (split sep s) as [|q qs] eqn:Hs; [now apply split_nonempty in Hs|].
      intros H. injection H as <- <-.
      destruct (IH q qs eq_refl) as [Hq Hrest]. split.
      * intros [H|H]; [congruence | contradiction].
      * destruct Hrest as [[-> ->] | (h & -> & Hh)]; [now left|].
        right. now exists h.
Qed.

Lemma split_no_sep (sep : ascii) (s : str) : ~ In sep s -> split sep s = [s].
Proof.
  induction s as [|c s IH]; simpl; [reflexivity|]. intros H.
  destruct (Ascii.eqb c sep) eqn:E.
  - apply Ascii.eqb_eq in E. tauto.
  - rewrite IH by tauto. reflexivity.
Qed.

Lemma split_app_sep (sep : ascii) (u h : str) :
  ~ In sep u -> split sep (u ++ sep :: h) = u :: split sep h.
Proof.
  induction u as [|c u IH]; simpl; intros H.
  - now rewrite Ascii.eqb_refl.
  - destruct (Ascii.eqb c sep) eqn:E.
    + apply Ascii.eqb_eq in E. tauto.
    + rewrite IH by tauto. reflexivity.
Qed.

(** Exactly two parts: exactly one separator. *)
Lemma split_two (sep : ascii) (s u h : str) :
  split sep s = [u; h] <-> s = u ++ sep :: h /\ ~ In sep u /\ ~ In sep h.
Proof.
  split.
  - intros H. apply split_cons_inv in H as [Hu [[H _] | (h' & -> & Hh)]]; [discriminate|].
    apply split_cons_inv in Hh as [Hh' [[_ ->] | (x & _ & Hx)]]; [easy|].
    now apply split_nonempty in Hx.
  - intros (-> & Hu & Hh). rewrite split_app_sep by assumption.
    now rewrite split_no_sep.
Qed.

(** The last part: free of separators, and the whole string or what follows
    its last separator. *)
Lemma last_split (sep : ascii) (s : str) :
  ~ In sep (last (split sep s) []) /\
  (s = last (split sep s) [] \/ exists pre, s = pre ++ sep :: last (split sep s) []).
Proof.
  induction s as [|c s IH].
  - split; [easy | now left].
  - cbn [split]. destruct IH as [Ht Hs].
    destruct (split sep s) as [|q qs] eqn:Hq; [now apply split_nonempty in Hq|].
    remember (last (q :: qs) []) as t eqn:Et.
    destruct (Ascii.eqb c sep) eqn:E.
    + apply Ascii.eqb_eq in E. subst c.
      change (last ([] :: q :: qs) []) with (last (q :: qs) []). rewrite <- Et.
      split; [exact Ht|]. right.
      destruct Hs as [Hs | [pre Hs]]; [exists [] | exists (sep :: pre)]; simpl; congruence.
    + apply Ascii.eqb_neq in E. destruct qs as [|r rs].
      * simpl in Et. subst t. simpl.
        apply split_cons_inv in Hq as [_ [[_ ->] | (h & _ & Hh)]].
        -- split; [intros [H|H]; [congruence|contradiction] | now left].
        -- now apply split_nonempty in Hh.
      * change (last ((c :: q) :: r :: rs) []) with (last (q :: r :: rs) []). rewrite <- Et.
        split; [exact Ht|]. right.
        destruct Hs as [Hs | [pre Hs]].
        -- exfalso. rewrite split_no_sep in Hq; [discriminate|]. now rewrite Hs.
        -- exists (c :: pre). simpl. congruence.
Qed.

(** A string has one suffix only that follows a separator and holds none. *)
Lemma last_part_unique (sep : ascii) (a b t u : str) :
  ~ In sep t -> ~ In sep u -> a ++ sep :: t = b ++ sep :: u -> t = u.
Proof.
  revert b. induction a as [|x a IH]; intros [|y b] Ht Hu H; simpl in H.
  - congruence.
  - injection H as <- ->. exfalso. apply Ht, in_or_app. right. now left.
  - injection H as -> <-. exfalso. apply Hu, in_or_app. right. now left.
  - injection H as _ H. eauto.
Qed.

End PyStrFacts.

Import PyStrFacts.

Lemma str_in_spec (s : str) (names : list str) : str_in s names = true <-> In s names.
Proof.
  unfold str_in. rewrite existsb_exists. split.
  - intros (x & Hx & E). apply str_eqb_spec in E. now subst.
  - intros H. exists s. split; [exact H | apply str_eqb_refl].
Qed.

Lemma isdigit_spec (s : str) :
  isdigit s = true <-> s <> [] /\ Forall (fun c => isdigit_char c = true) s.
Proof.
  unfold isdigit. destruct s as [|c s].
  - split; [discriminate | intros [H _]; contradiction].
  - rewrite forallb_forall, Forall_forall. split; [intros H; split; [discriminate | exact H] | tauto].
Qed.

(** ** The Name Validator *)

(** The warning of [verify_name] for a name with no space in it. *)
Definition no_space_warning (name : str) : list event :=
  Stdout (lit "WARNING: name '" ++ name ++ lit "' does not contain a space.")
  :: output print_git_user_instructions.

(** The denylist of the spec, on the name once lower-cased and trimmed. *)
Definition denied_name (name : str) : Prop :=
  let n := strip (lower name) in
  n = lit "unknown" \/ n = lit "root" \/ n = lit "user" \/ n = lit "your name".

Lemma denied_name_forbidden (name : str) :
  denied_name name <-> str_in (strip (lower name)) forbidden_names = true.
Proof.
  rewrite str_in_spec. unfold denied_name, forbidden_names. simpl.
  intuition congruence.
Qed.

Lemma verify_name_run (name : str) :
  verify_name name =
  let n := strip (lower name) in
  if str_in n forbidden_names then ([], Return false)
  else if contains (lit " ") n then ([], Return true)
  else (no_space_warning n, Return true).
Proof.
  unfold verify_name. cbv zeta.
  destruct (str_in _ _); [reflexivity|].
  destruct (contains _ _); reflexivity.
Qed.

(** C5. The Name Validator returns, and returns false exactly for the names
    that, lower-cased and trimmed, are one of unknown, root, user and
    your name; every other name is accepted.  The warning for a name with
    no space goes to the output only (it is printed for the accepted names
    with no space, and for no other), so the result is decided by the
    denylist alone.  The spec's names: unknown, Root, USER between spaces and
    Your Name are rejected, Jane Doe is accepted with no output, and jdoe is
    accepted with the warning. *)
Theorem verify_name_denylist :
  (forall name : str,
      (result (verify_name name) = Return false <-> denied_name name) /\
      (result (verify_name name) = Return true <-> ~ denied_name name) /\
      (output (verify_name name) <> [] <->
         ~ denied_name name /\ ~ In " "%char (strip (lower name))) /\
      (output (verify_name name) = [] \/
       output (verify_name name) = no_space_warning (strip (lower name)))) /\
  verify_name (lit "unknown") = ([], Return false) /\
  verify_name (lit "Root") = ([], Return false) /\
  verify_name (lit " USER ") = ([], Return false) /\
  verify_name (lit "Your Name") = ([], Return false) /\
  verify_name (lit "Jane Doe") = ([], Return true) /\
  verify_name (lit "jdoe") = (no_space_warning (lit "jdoe"), Return true).
Proof.
  split; [|repeat split; reflexivity].
  intros name. rewrite denied_name_forbidden, <- contains_char, verify_name_run.
  cbv zeta. change [" "%char] with (lit " ").
  destruct (str_in _ _); [|destruct (contains _ _)]; cbn [result output fst snd];
    unfold no_space_warning; repeat split; intros; try tauto; try congruence;
    try discriminate; try (intuition congruence).
Qed.

(** ** The Email Validator *)

(** The top-level label of a host, in the spec's words: what follows the
    last [.] of the host, and the whole host when it has no [.] *)
Definition top_level_label (host tld : str) : Prop :=
  ~ In "."%char tld /\ (host = tld \/ exists pre, host = pre ++ "."%char :: tld).

(** A label made of digits only: it has a character, and only digits. *)
Definition all_digits (s : str) : Prop :=
  s <> [] /\ Forall (fun c => isdigit_char c = true) s.

(** What the spec asks of an address that is accepted. *)
Definition acceptable_email (email : str) : Prop :=
  exists user host : str,
    strip (lower email) = user ++ "@"%char :: host /\
    ~ In "@"%char user /\ ~ In "@"%char host /\
    (forall tld, top_level_label host tld ->
                 ~ has_substring (lit "local") tld /\ ~ all_digits tld) /\
    ~ ends_with (lit ".wireshark.org") host /\
    host <> lit "example.com" /\
    ~ has_substring (lit "(none)") host.

Lemma top_level_label_last (host : str) :
  top_level_label host (last (split "." host) []).
Proof. apply last_split. Qed.

Lemma top_level_label_unique (host t u : str) :
  top_level_label host t -> top_level_label host u -> t = u.
Proof.
  intros [Ht [Et | [a Et]]] [Hu [Eu | [b Eu]]].
  - congruence.
  - exfalso. apply Ht. rewrite <- Et, Eu. apply in_or_app. right. now left.
  - exfalso. apply Hu. rewrite <- Eu, Et. apply in_or_app. right. now left.
  - apply (last_part_unique "."%char a b); congruence.
Qed.

Lemma not_true_false (b : bool) (P : Prop) : (b = true <-> P) -> (b = false <-> ~ P).
Proof. destruct b; intuition congruence. Qed.

(** The checks of [verify_email] on the host, once the address is split. *)
Lemma verify_email_host (email user host : str) :
  split "@" (strip (lower email)) = [user; host] ->
  verify_email email =
  let tld := last (split "." host) [] in
  negb (contains (lit "local") tld) && negb (isdigit tld)
  && negb (endswith (lit ".wireshark.org") host)
  && negb (str_eqb host (lit "example.com"))
  && negb (contains (lit "(none)") host).
Proof.
  intros H. unfold verify_email. cbv zeta. rewrite H.
  repeat match goal with |- context [if ?b then _ else _] => destruct b end; reflexivity.
Qed.

(** C1. The Email Validator accepts an address exactly when, lower-cased
    and trimmed, it has one [@] (it is a user part, [@], and a host, neither
    holding an [@]), the host's top-level label neither contains local nor is
    made of digits only (a label with no character is not), and the host
    neither ends in .wireshark.org, nor is example.com, nor contains (none).
    The spec's seven addresses come out as it says. *)
Theorem verify_email_accepts :
  (forall email : str, verify_email email = true <-> acceptable_email email) /\
  verify_email (lit "x@code.wireshark.org") = false /\
  verify_email (lit "a@example.com") = false /\
  verify_email (lit "u@host.local") = false /\
  verify_email (lit "u@192.168.1.1") = false /\
  verify_email (lit "u@host.(none)") = false /\
  verify_email (lit "noatsign") = false /\
  verify_email (lit "dev@realmail.org") = true.
Proof.
  split; [|repeat split; reflexivity].
  intros email. unfold acceptable_email. split.
  - intros H.
    destruct (split "@" (strip (lower email))) as [|user [|host [|x xs]]] eqn:Hs;
      try (unfold verify_email in H; cbv zeta in H; rewrite Hs in H; discriminate).
    rewrite (verify_email_host _ _ _ Hs) in H. cbv zeta in H.
    apply andb_prop in H as [H Hn]. apply andb_prop in H as [H He].
    apply andb_prop in H as [H Hw]. apply andb_prop in H as [Hl Hd].
    apply negb_true_iff in Hn, He, Hw, Hl, Hd.
    apply split_two in Hs as (Hs & Hu & Hh).
    exists user, host.
    split; [exact Hs|]. split; [exact Hu|]. split; [exact Hh|].
    split; [|split; [|split]].
    + intros tld Htld.
      rewrite (top_level_label_unique _ _ _ Htld (top_level_label_last host)).
      split; intros C.
      * apply contains_spec in C. congruence.
      * apply isdigit_spec in C. congruence.
    + intros C. apply endswith_spec in C. congruence.
    + intros C. apply str_eqb_spec in C. congruence.
    + intros C. apply contains_spec in C. congruence.
  - intros (user & host & Hs & Hu & Hh & Htld & Hw & He & Hn).
    assert (Hsplit : split "@" (strip (lower email)) = [user; host])
      by (apply split_two; auto).
    rewrite (verify_email_host _ _ _ Hsplit). cbv zeta.
    destruct (Htld _ (top_level_label_last host)) as [Hl Hd].
    rewrite <- contains_spec in Hl, Hn. unfold all_digits in Hd. rewrite <- isdigit_spec in Hd.
    rewrite <- endswith_spec in Hw. rewrite <- str_eqb_spec in He.
    apply not_true_is_false in Hl, Hd, Hw, He, Hn.
    now rewrite Hl, Hd, Hw, He, Hn.
Qed.

(** ** The Subject Normalizer *)

(** [rstrip]: what is cut is a run of characters of the set, and what is left
    does not end in one. *)
Lemma rstrip_by_tail (p : ascii -> bool) (s : str) :
  exists t, s = rstrip_by p s ++ t /\ forallb p t = true.
Proof.
  induction s as [|c s (t & Hs & Ht)]; [now exists []|].
  simpl. destruct (rstrip_by p s) as [|x r].
  - destruct (p c) eqn:Hc.
    + exists (c :: t). simpl in *. rewrite Hc, Ht. now rewrite Hs at 1.
    + exists t. simpl in *. now rewrite Hs at 1.
  - exists t. simpl in *. now rewrite Hs at 1.
Qed.

Lemma rstrip_by_last (p : ascii -> bool) (s r : str) (c : ascii) :
  rstrip_by p s = r ++ [c] -> p c = false.
Proof.
  revert r. induction s as [|a s IH]; intros r; simpl.
  - now destruct r.
  - destruct (rstrip_by p s) as [|x q].
    + destruct (p a) eqn:Ha; [now destruct r|].
      destruct r as [|y [|z r]]; simpl; intros H; try discriminate. congruence.
    + destruct r as [|y r]; simpl; intros H; [discriminate|].
      injection H as _ H. now apply (IH r).
Qed.

Lemma rstrip_by_all (p : ascii -> bool) (t : str) :
  forallb p t = true -> rstrip_by p t = [].
Proof.
  induction t as [|c t IH]; simpl; [reflexivity|]. intros H.
  apply andb_prop in H as [Hc Ht]. now rewrite IH, Hc.
Qed.

Lemma rstrip_by_app (p : ascii -> bool) (r t : str) :
  forallb p t = true ->
  (forall q c, r = q ++ [c] -> p c = false) ->
  rstrip_by p (r ++ t) = r.
Proof.
  intros Ht. induction r as [|a r IH]; intros Hr; simpl.
  - now apply rstrip_by_all.
  - rewrite IH.
    + destruct r; [|reflexivity]. now rewrite (Hr [] a eq_refl).
    + intros q c ->. apply (Hr (a :: q) c). reflexivity.
Qed.

(** A subject with the Revert wrapper around it. *)
Definition revert_wrapper (s : str) : Prop :=
  starts_with prefix s /\ ends_with suffix s.

Lemma wrapped_spec (s : str) : wrapped s = true <-> revert_wrapper s.
Proof.
  unfold wrapped, revert_wrapper.
  now rewrite andb_true_iff, startswith_spec, endswith_spec.
Qed.

Lemma wrapped_false (s : str) : wrapped s = false <-> ~ revert_wrapper s.
Proof. apply not_true_false, wrapped_spec. Qed.

(** The loop, one turn at a time. *)
Lemma unwrap_step (s : str) :
  unwrap s = if wrapped s then unwrap (unwrap_once s) else s.
Proof. funelim (unwrap s); rewrite e; reflexivity. Qed.

Lemma unwrap_not_wrapped (s : str) : wrapped (unwrap s) = false.
Proof. funelim (unwrap s); assumption. Qed.

Lemma unwrap_turns (s : str) :
  exists turns,
    unwrap s = Nat.iter turns unwrap_once s /\
    forall k, k < turns -> wrapped (Nat.iter k unwrap_once s) = true.
Proof.
  funelim (unwrap s).
  - destruct H as (n & Hn & Hk). exists (S n). split.
    + rewrite Hn. simpl. apply Nat.iter_swap.
    + intros [|k] Hlt; [exact e|].
      simpl. rewrite <- Nat.iter_swap. apply Hk. lia.
  - exists 0. split; [reflexivity | intros k Hk; lia].
Qed.

(** A turn of the loop takes the prefix and the closing quote away. *)
Lemma unwrap_once_wrapper (text : str) :
  unwrap_once (prefix ++ text ++ suffix) = text.
Proof.
  unfold unwrap_once, slice, slice_index.
  rewrite !length_app. change (length prefix) with 8. change (length suffix) with 1.
  replace (- Z.of_nat 1 <? 0)%Z with true by reflexivity.
  replace (Z.of_nat 8 <? 0)%Z with false by reflexivity.
  rewrite Z.min_r, Z.max_r by lia.
  replace (Z.to_nat (Z.of_nat (8 + (length text + 1)) + - Z.of_nat 1 - Z.of_nat 8))
    with (length text) by lia.
  rewrite Nat2Z.id.
  change 8 with (length prefix). rewrite skipn_app, skipn_all, Nat.sub_diag.
  simpl skipn. rewrite app_nil_l, firstn_app, firstn_all, Nat.sub_diag.
  simpl. apply app_nil_r.
Qed.

Lemma wrapped_wrapper (text : str) : wrapped (prefix ++ text ++ suffix) = true.
Proof.
  apply wrapped_spec. split.
  - now exists (text ++ suffix).
  - exists (prefix ++ text). now rewrite app_assoc.
Qed.

Lemma unwrap_wrapper (text : str) :
  unwrap (prefix ++ text ++ suffix) = unwrap text.
Proof. now rewrite unwrap_step, wrapped_wrapper, unwrap_once_wrapper. Qed.

Lemma is_crlf_spec (c : ascii) : is_crlf c = true <-> c = CR \/ c = LF.
Proof. unfold is_crlf. now rewrite orb_true_iff, !Ascii.eqb_eq. Qed.

(** C6. The Subject Normalizer first strips the trailing CR and LF
    characters: what it cuts is a run of them, and what is left ends in
    neither.  Then it takes the Revert wrapper away turn by turn, as long as
    the string starts with the prefix and ends with the quote, a turn taking
    exactly the prefix and the closing quote away.  The result has no
    wrapper left; a stripped subject with no wrapper is the result itself;
    and a subject wrapped twice around a text with no wrapper, with CR and
    LF characters after it or none, gives that text. *)
Theorem extract_subject_unwraps (subject : str) :
  let stripped := rstrip_by is_crlf subject in
  (exists tail,
      subject = stripped ++ tail /\
      Forall (fun c => c = CR \/ c = LF) tail /\
      ~ ends_with [CR] stripped /\ ~ ends_with [LF] stripped) /\
  (exists turns,
      extract_subject subject = Nat.iter turns unwrap_once stripped /\
      forall k, k < turns -> revert_wrapper (Nat.iter k unwrap_once stripped)) /\
  (forall text, unwrap_once (prefix ++ text ++ suffix) = text) /\
  ~ revert_wrapper (extract_subject subject) /\
  (~ revert_wrapper stripped -> extract_subject subject = stripped) /\
  (forall text tail,
      ~ revert_wrapper text ->
      Forall (fun c => c = CR \/ c = LF) tail ->
      subject = prefix ++ (prefix ++ text ++ suffix) ++ suffix ++ tail ->
      extract_subject subject = text).
Proof.
  cbv zeta. unfold extract_subject. repeat apply conj.
  - destruct (rstrip_by_tail is_crlf subject) as (t & Hs & Ht).
    exists t. split; [exact Hs|]. split.
    + apply Forall_forall. intros c Hc. apply is_crlf_spec.
      rewrite forallb_forall in Ht. now apply Ht.
    + split; intros [q Hq]; apply rstrip_by_last in Hq; discriminate.
  - destruct (unwrap_turns (rstrip_by is_crlf subject)) as (n & Hn & Hk).
    exists n. split; [exact Hn|]. intros k Hlt. now apply wrapped_spec, Hk.
  - apply unwrap_once_wrapper.
  - apply wrapped_false, unwrap_not_wrapped.
  - intros H. apply wrapped_false in H. now rewrite unwrap_step, H.
  - intros text tail Htext Htail ->.
    replace (prefix ++ (prefix ++ text ++ suffix) ++ suffix ++ tail)
      with ((prefix ++ (prefix ++ text ++ suffix) ++ suffix) ++ tail)
      by now rewrite <- !app_assoc.
    rewrite rstrip_by_app.
    + rewrite !unwrap_wrapper, unwrap_step.
      apply wrapped_false in Htext. now rewrite Htext.
    + apply forallb_forall. intros c Hc. apply is_crlf_spec.
      rewrite Forall_forall in Htail. now apply Htail.
    + intros q c Hq. rewrite !app_assoc in Hq.
      apply app_inj_tail in Hq as [_ <-]. reflexivity.
Qed.

(** ** The Body Validator *)

Lemma splitlines_from_nonempty (cur s : str) :
  cur <> [] \/ s <> [] -> splitlines_from cur s <> [].
Proof.
  revert cur. induction s as [|c s IH]; intros cur H; simpl.
  - destruct cur; [now destruct H | discriminate].
  - destruct (islinebreak c).
    + destruct s as [|d s]; [discriminate|].
      destruct (Ascii.eqb c CR && Ascii.eqb d LF); discriminate.
    + apply IH. left. discriminate.
Qed.

(** A body that is not empty has a first line. *)
Lemma splitlines_first (body : str) :
  body <> [] -> exists first rest, splitlines body = first :: rest.
Proof.
  intros H. destruct (splitlines body) as [|first rest] eqn:E.
  - exfalso. revert E. apply splitlines_from_nonempty. now right.
  - now exists first, rest.
Qed.

(** A blank line: white space only. *)
Definition blank (line : str) : Prop := Forall (fun c => isspace_char c = true) line.

Lemma lstrip_by_nil (p : ascii -> bool) (s : str) :
  lstrip_by p s = [] <-> forallb p s = true.
Proof.
  induction s as [|c s IH]; simpl; [easy|].
  destruct (p c); simpl; [exact IH | easy].
Qed.

Lemma strip_blank (line : str) : strip line = [] <-> blank line.
Proof.
  unfold strip, blank. rewrite lstrip_by_nil, Forall_forall, <- forallb_forall.
  destruct (rstrip_by_tail isspace_char line) as (t & Hs & Ht). split.
  - intros H. rewrite Hs, forallb_app, H, Ht. reflexivity.
  - intros H. rewrite Hs, forallb_app in H. now apply andb_prop in H as [H _].
Qed.

(** The two format checks as conditions on the lines. *)
Definition second_line_nonblank (lines : list str) : bool :=
  (2 <=? length lines) && negb (str_eqb (strip (nth 1 lines [])) []).

Definition subject_too_long (first_line : str) : bool :=
  80 <? length (extract_subject first_line).

Definition missing_blank_line : event :=
  Stdout (lit "ERROR: missing blank line after the first subject line.").

Definition long_line_warning : event :=
  Stdout (lit "Warning: keep lines in the commit message under 80 characters.").

Lemma second_line_nonblank_spec (lines : list str) :
  second_line_nonblank lines = true <->
  exists second, nth_error lines 1 = Some second /\ ~ blank second.
Proof.
  unfold second_line_nonblank. rewrite andb_true_iff, negb_true_iff, str_eqb_neq.
  destruct lines as [|l0 [|l1 ls]]; simpl.
  - split; [intros [H _]; discriminate | intros (x & H & _); discriminate].
  - split; [intros [H _]; discriminate | intros (x & H & _); discriminate].
  - rewrite strip_blank. split.
    + intros [_ H]. now exists l1.
    + intros (x & H & Hx). injection H as ->. now split.
Qed.

(** What [format_checks] does on the lines of a body that has a first line. *)
Lemma format_checks_run (first : str) (rest : list str) :
  let lines := first :: rest in
  let is_good := negb (second_line_nonblank lines) && negb (subject_too_long first) in
  format_checks lines =
  ((if second_line_nonblank lines then [missing_blank_line] else [])
   ++ (if subject_too_long first then [long_line_warning] else [])
   ++ (if is_good then [] else [Stdout format_guidance]),
   Return is_good).
Proof.
  cbv zeta. unfold format_checks, subject_too_long.
  fold (second_line_nonblank (first :: rest)).
  destruct (second_line_nonblank (first :: rest));
    cbn [bind ret print emit getitem nth_error];
    destruct (80 <? length (extract_subject first)); reflexivity.
Qed.

Lemma format_checks_empty : format_checks [] = ([], Raise IndexError).
Proof. reflexivity. Qed.

(** A line with the forbidden issue syntax. *)
Definition forbidden_issue_line (line : str) : Prop :=
  starts_with (lit "Bug:") line \/ starts_with (lit "Ping-Bug:") line.

Lemma issue_line_spec (line : str) : issue_line line = true <-> forbidden_issue_line line.
Proof.
  unfold issue_line, forbidden_issue_line.
  now rewrite orb_true_iff, !startswith_spec.
Qed.

Lemma existsb_issue_line (lines : list str) :
  existsb issue_line lines = true <->
  exists line, In line lines /\ forbidden_issue_line line.
Proof.
  rewrite existsb_exists.
  split; intros (l & Hl & H); exists l; (split; [exact Hl | now apply issue_line_spec]).
Qed.

Definition is_spawn (e : event) : bool :=
  match e with Spawn _ _ => true | _ => false end.

(** No event of the format checks starts a subprocess. *)
Lemma format_checks_no_spawn (lines : list str) :
  forallb (fun e => negb (is_spawn e)) (output (format_checks lines)) = true.
Proof.
  destruct lines as [|first rest]; [reflexivity|].
  rewrite format_checks_run. cbv zeta. cbn [output fst].
  destruct (second_line_nonblank _), (subject_too_long _); reflexivity.
Qed.

Section BodyValidator.

Variable communicate : list str -> str -> outcome str.
Variable unified_diff : list str -> list str -> str -> str -> list str.

Local Abbreviation compare := (stripspace_check communicate unified_diff).

(** [verify_body] after the format checks returned [is_good]. *)
Lemma verify_body_run (body : str) (checks : list event) (is_good : bool) :
  format_checks (splitlines body) = (checks, Return is_good) ->
  verify_body communicate unified_diff body =
  if existsb issue_line (splitlines body)
  then (checks ++ [Stderr issue_guidance], Return false)
  else (checks ++ output (compare body (splitlines body) is_good),
        result (compare body (splitlines body) is_good)).
Proof.
  intros H. unfold verify_body. cbv zeta. rewrite H. cbn [bind].
  destruct (existsb issue_line (splitlines body)); [reflexivity|].
  now destruct (compare _ _ _).
Qed.

Lemma stripspace_check_oserror (body : str) (lines : list str) (is_good : bool) (msg : str) :
  communicate stripspace_cmd body = Raise (OSError msg) ->
  compare body lines is_good =
  ([Spawn stripspace_cmd (Some body);
    Stdout (lit "Warning: unable to invoke git stripspace: " ++ msg)],
   Return is_good).
Proof.
  intros H. unfold stripspace_check, run_communicate, try_except_OSError.
  cbn [bind ret]. rewrite H. reflexivity.
Qed.

Lemma stripspace_check_unchanged (body : str) (lines : list str) (is_good : bool) :
  communicate stripspace_cmd body = Return body ->
  compare body lines is_good =
  ([Spawn stripspace_cmd (Some body)], Return is_good).
Proof.
  intros H. unfold stripspace_check, run_communicate, try_except_OSError.
  cbn [bind ret]. rewrite H. cbn [bind ret app]. now rewrite str_eqb_refl.
Qed.

(** The comparison gives [is_good] or false, unless the subprocess raised
    what [verify_body] does not catch. *)
Lemma stripspace_check_result (body : str) (lines : list str) (is_good : bool) :
  result (compare body lines is_good) = Return is_good \/
  result (compare body lines is_good) = Return false \/
  exists e, communicate stripspace_cmd body = Raise e /\
            (forall msg, e <> OSError msg) /\
            result (compare body lines is_good) = Raise e.
Proof.
  unfold stripspace_check, run_communicate, try_except_OSError.
  cbn [bind ret]. destruct (communicate stripspace_cmd body) as [newbody | e].
  - cbn [bind ret app]. destruct (negb (str_eqb newbody body)); [right|]; now left.
  - destruct e; cbn;
      try (right; right; eexists;
           split; [reflexivity | split; [intros ?; discriminate | reflexivity]]).
    now left.
Qed.

(** C2. A body that is not empty and has a line starting with Bug: or
    Ping-Bug: is failed on the spot: whatever the blank-line and
    subject-length checks found, the validator writes the guidance on issues
    after their diagnostics and returns false, and nothing of the
    normalization step happens: its subprocess is never started, so neither
    its warning nor its diff is printed. *)
Theorem verify_body_issue_line (body : str) :
  body <> [] ->
  (exists line, In line (splitlines body) /\ forbidden_issue_line line) ->
  exists (checks : list event) (is_good : bool),
    format_checks (splitlines body) = (checks, Return is_good) /\
    verify_body communicate unified_diff body = (checks ++ [Stderr issue_guidance], Return false) /\
    forall e, In e (output (verify_body communicate unified_diff body)) -> is_spawn e = false.
Proof.
  intros Hbody Hline. apply existsb_issue_line in Hline.
  destruct (splitlines_first body Hbody) as (first & rest & Hlines).
  pose proof (format_checks_run first rest) as Hrun. cbv zeta in Hrun.
  rewrite <- Hlines in Hrun.
  pose proof (format_checks_no_spawn (splitlines body)) as Hns.
  rewrite Hrun in Hns. cbn [output fst] in Hns.
  eexists _, _. split; [exact Hrun|].
  rewrite (verify_body_run _ _ _ Hrun), Hline. split; [reflexivity|].
  cbn [output fst]. intros e He. apply in_app_or in He as [He | [<- | []]].
  - rewrite forallb_forall in Hns. apply Hns in He. now apply negb_true_iff.
  - reflexivity.
Qed.

(** The body is marked as failing: [is_good] is false after the format
    checks, and [verify_body] returns false, the one other way out being an
    exception of the subprocess that it does not catch. *)
Definition marked_failing (body : str) : Prop :=
  result (format_checks (splitlines body)) = Return false /\
  (result (verify_body communicate unified_diff body) = Return false \/
   exists e, communicate stripspace_cmd body = Raise e /\
             (forall msg, e <> OSError msg) /\
             result (verify_body communicate unified_diff body) = Raise e).

Lemma verify_body_result (body : str) (checks : list event) (is_good : bool) :
  format_checks (splitlines body) = (checks, Return is_good) ->
  result (verify_body communicate unified_diff body) = Return is_good \/
  result (verify_body communicate unified_diff body) = Return false \/
  exists e, communicate stripspace_cmd body = Raise e /\
            (forall msg, e <> OSError msg) /\
            result (verify_body communicate unified_diff body) = Raise e.
Proof.
  intros H. rewrite (verify_body_run _ _ _ H).
  destruct (existsb issue_line (splitlines body)); [right; now left|].
  apply stripspace_check_result.
Qed.

Lemma verify_body_output (body : str) (checks : list event) (is_good : bool) :
  format_checks (splitlines body) = (checks, Return is_good) ->
  exists more, output (verify_body communicate unified_diff body) = checks ++ more.
Proof.
  intros H. rewrite (verify_body_run _ _ _ H).
  destruct (existsb issue_line (splitlines body)); eexists; reflexivity.
Qed.

Lemma not_good_marked_failing (body : str) (checks : list event) :
  format_checks (splitlines body) = (checks, Return false) -> marked_failing body.
Proof.
  intros H. split; [now rewrite H|].
  destruct (verify_body_result _ _ _ H) as [E | [E | E]]; auto.
Qed.

(** C4. For a body that is not empty: when it has a second line that is not
    blank, the validator prints the error on the missing blank line and
    marks the body as failing; and when its first line, the Revert wrappers
    taken away by the Subject Normalizer, has more than 80 characters, the
    validator prints the warning on long lines and marks the body as
    failing. *)
Theorem verify_body_format_failure (body : str) :
  body <> [] ->
  (forall second,
      nth_error (splitlines body) 1 = Some second -> ~ blank second ->
      In missing_blank_line (output (verify_body communicate unified_diff body)) /\
      marked_failing body) /\
  (forall first,
      nth_error (splitlines body) 0 = Some first ->
      80 < length (extract_subject first) ->
      In long_line_warning (output (verify_body communicate unified_diff body)) /\
      marked_failing body).
Proof.
  intros Hbody.
  destruct (splitlines_first body Hbody) as (first & rest & Hlines).
  pose proof (format_checks_run first rest) as Hrun. cbv zeta in Hrun.
  rewrite <- Hlines in Hrun. split.
  - intros second Hnth Hblank.
    assert (E : second_line_nonblank (splitlines body) = true)
      by (apply second_line_nonblank_spec; now exists second).
    rewrite E in Hrun. cbn [negb andb] in Hrun.
    destruct (verify_body_output _ _ _ Hrun) as [more ->].
    split; [now left | exact (not_good_marked_failing _ _ Hrun)].
  - intros first' Hnth Hlong. rewrite Hlines in Hnth. injection Hnth as <-.
    assert (E : subject_too_long first = true) by now apply Nat.ltb_lt.
    rewrite E, andb_false_r in Hrun.
    destruct (verify_body_output _ _ _ Hrun) as [more ->].
    split; [|exact (not_good_marked_failing _ _ Hrun)].
    apply in_or_app. left. apply in_or_app. right. now left.
Qed.

Lemma no_issue_line (body : str) :
  (forall line, In line (splitlines body) -> ~ forbidden_issue_line line) ->
  existsb issue_line (splitlines body) = false.
Proof.
  intros H. apply not_true_is_false. intros E.
  apply existsb_issue_line in E as (line & Hin & Hl). now apply (H line).
Qed.

(** C7. For a body that is not empty and has no line starting with Bug: or
    Ping-Bug:, when the normalization subprocess cannot be started (it
    raises OSError), the validator prints a warning with the error and
    returns the state [is_good] of the blank-line and subject-length checks,
    as it is; the run goes on. *)
Theorem verify_body_stripspace_unavailable (body msg : str) :
  body <> [] ->
  (forall line, In line (splitlines body) -> ~ forbidden_issue_line line) ->
  communicate stripspace_cmd body = Raise (OSError msg) ->
  exists (checks : list event) (is_good : bool),
    format_checks (splitlines body) = (checks, Return is_good) /\
    verify_body communicate unified_diff body =
    (checks ++ [Spawn stripspace_cmd (Some body);
                Stdout (lit "Warning: unable to invoke git stripspace: " ++ msg)],
     Return is_good).
Proof.
  intros Hbody Hissue Hraise.
  destruct (splitlines_first body Hbody) as (first & rest & Hlines).
  pose proof (format_checks_run first rest) as Hrun. cbv zeta in Hrun.
  rewrite <- Hlines in Hrun.
  eexists _, _. split; [exact Hrun|].
  rewrite (verify_body_run _ _ _ Hrun), (no_issue_line _ Hissue).
  now rewrite (stripspace_check_oserror _ _ _ _ Hraise).
Qed.

(** A body that is well formed and that the normalization leaves as it is
    passes; nothing is printed. *)
Lemma verify_body_fixed_point (body : str) :
  body <> [] ->
  communicate stripspace_cmd body = Return body ->
  (forall second, nth_error (splitlines body) 1 = Some second -> blank second) ->
  (forall first,
      nth_error (splitlines body) 0 = Some first -> length (extract_subject first) <= 80) ->
  (forall line, In line (splitlines body) -> ~ forbidden_issue_line line) ->
  verify_body communicate unified_diff body = ([Spawn stripspace_cmd (Some body)], Return true).
Proof.
  intros Hbody Hfix Hsecond Hfirst Hissue.
  destruct (splitlines_first body Hbody) as (first & rest & Hlines).
  pose proof (format_checks_run first rest) as Hrun. cbv zeta in Hrun.
  rewrite <- Hlines in Hrun.
  assert (E1 : second_line_nonblank (splitlines body) = false).
  { apply not_true_is_false. intros E.
    apply second_line_nonblank_spec in E as (second & Hnth & Hblank). eauto. }
  assert (E2 : subject_too_long first = false).
  { apply Nat.ltb_ge, Hfirst. now rewrite Hlines. }
  rewrite E1, E2 in Hrun. cbn [negb andb app] in Hrun.
  rewrite (verify_body_run _ _ _ Hrun), (no_issue_line _ Hissue).
  now rewrite (stripspace_check_unchanged _ _ _ Hfix).
Qed.

(** C9. With a normalization that is idempotent, a body that is not empty,
    that the normalization returns unchanged, whose second line is blank or
    absent, whose cleaned subject has at most 80 characters and that has no
    line starting with Bug: or Ping-Bug:, passes: the validator returns
    true. *)
Theorem verify_body_normalized_passes (body : str) :
  (forall s t, communicate stripspace_cmd s = Return t ->
               communicate stripspace_cmd t = Return t) ->
  body <> [] ->
  communicate stripspace_cmd body = Return body ->
  (forall second, nth_error (splitlines body) 1 = Some second -> blank second) ->
  (forall first,
      nth_error (splitlines body) 0 = Some first -> length (extract_subject first) <= 80) ->
  (forall line, In line (splitlines body) -> ~ forbidden_issue_line line) ->
  result (verify_body communicate unified_diff body) = Return true.
Proof.
  intros _ Hbody Hfix Hsecond Hfirst Hissue.
  now rewrite verify_body_fixed_point.
Qed.

End BodyValidator.

(** ** The Commit Fetcher *)

Lemma split_max_zero (sep : ascii) (s : str) : split_max sep 0 s = [s].
Proof. now destruct s. Qed.

Lemma split_max_nonempty (sep : ascii) (n : nat) (s : str) : split_max sep n s <> [].
Proof.
  destruct n; [now rewrite split_max_zero|].
  destruct s as [|c s]; simpl; [easy|].
  destruct (Ascii.eqb c sep); [easy|]. now destruct (split_max sep (S n) s).
Qed.

Lemma split_max_app_sep (sep : ascii) (m : nat) (u h : str) :
  ~ In sep u -> split_max sep (S m) (u ++ sep :: h) = u :: split_max sep m h.
Proof.
  induction u as [|c u IH]; intros H.
  - simpl. now rewrite Ascii.eqb_refl.
  - cbn [app split_max]. destruct (Ascii.eqb c sep) eqn:E.
    + apply Ascii.eqb_eq in E. simpl in H. tauto.
    + rewrite IH by (simpl in H; tauto). reflexivity.
Qed.

Lemma split_max_cons_inv (sep : ascii) (m : nat) (s p : str) (ps : list str) :
  split_max sep (S m) s = p :: ps ->
  ~ In sep p /\
  ((ps = [] /\ s = p) \/ (exists h, s = p ++ sep :: h /\ split_max sep m h = ps)).
Proof.
  revert p ps. induction s as [|c s IH]; intros p ps.
  - simpl. intros H. injection H as <- <-. split; [easy | now left].
  - cbn [split_max]. destruct (Ascii.eqb c sep) eqn:E.
    + apply Ascii.eqb_eq in E. subst c. intros H. injection H as <- <-.
      split; [easy|]. right. now exists s.
    + apply Ascii.eqb_neq in E.
      destruct (split_max sep (S m) s) as [|q qs] eqn:Hs;
        [now apply split_max_nonempty in Hs|].
      intros H. injection H as <- <-.
      destruct (IH q qs eq_refl) as [Hq Hrest]. split.
      * intros [H|H]; [congruence | contradiction].
      * destruct Hrest as [[-> ->] | (h & -> & Hh)]; [now left|].
        right. now exists h.
Qed.

(** Four parts: three separators, none of them in the first three parts. *)
Lemma split_max_four (sep : ascii) (s a b c d : str) :
  split_max sep 3 s = [a; b; c; d] <->
  s = a ++ sep :: b ++ sep :: c ++ sep :: d /\ ~ In sep a /\ ~ In sep b /\ ~ In sep c.
Proof.
  split.
  - intros H.
    apply split_max_cons_inv in H as [Ha [[H _] | (s1 & -> & H)]]; [discriminate|].
    apply split_max_cons_inv in H as [Hb [[H _] | (s2 & -> & H)]]; [discriminate|].
    apply split_max_cons_inv in H as [Hc [[H _] | (s3 & -> & H)]]; [discriminate|].
    rewrite split_max_zero in H. injection H as ->. auto.
  - intros (-> & Ha & Hb & Hc).
    now rewrite !split_max_app_sep, split_max_zero.
Qed.

Lemma slice_init (t : str) (c : ascii) : slice (t ++ [c]) 0 (-1) = t.
Proof.
  unfold slice, slice_index. rewrite length_app. simpl length.
  replace (0 <? 0)%Z with false by reflexivity.
  replace (-1 <? 0)%Z with true by reflexivity.
  rewrite Z.min_r, Z.max_r by lia.
  replace (Z.to_nat (Z.of_nat (length t + 1) + -1 - 0)) with (length t) by lia.
  simpl. rewrite firstn_app, firstn_all, Nat.sub_diag. simpl. apply app_nil_r.
Qed.

(** One newline goes when the output ends in two, and nothing otherwise. *)
Lemma drop_extra_lf_spec (output : str) :
  (ends_with [LF; LF] output -> output = drop_extra_lf output ++ [LF]) /\
  (~ ends_with [LF; LF] output -> drop_extra_lf output = output).
Proof.
  unfold drop_extra_lf. split.
  - intros H. pose proof H as [t ->]. apply endswith_spec in H. rewrite H.
    change (t ++ [LF; LF]) with (t ++ [LF] ++ [LF]).
    now rewrite app_assoc, slice_init.
  - intros H. rewrite <- endswith_spec in H. apply not_true_is_false in H.
    now rewrite H.
Qed.

Section CommitFetcher.

Variable check_output : list str -> outcome str.

(** C8. Of the output of the query, the Commit Fetcher drops one newline at
    the end when the output ends in two (the extra blank line), and none
    otherwise; then it returns the four fields abbreviated id, author name,
    author email and body exactly when what is left is the three first
    fields, with no newline in them, each followed by a newline, and then
    the body: all that follows the third newline, its own newlines
    included.  A text with fewer than three newlines, which the format of
    the query never gives, has fewer parts, and the unpacking raises
    ValueError. *)
Theorem fetch_commit_fields (commit output : str) :
  check_output (show_cmd commit) = Return output ->
  (ends_with [LF; LF] output -> output = drop_extra_lf output ++ [LF]) /\
  (~ ends_with [LF; LF] output -> drop_extra_lf output = output) /\
  (forall abbrev author_name author_email body : str,
      result (fetch_commit check_output commit)
      = Return (abbrev, author_name, author_email, body) <->
      drop_extra_lf output
      = abbrev ++ LF :: author_name ++ LF :: author_email ++ LF :: body /\
      ~ In LF abbrev /\ ~ In LF author_name /\ ~ In LF author_email) /\
  ((exists fields, result (fetch_commit check_output commit) = Return fields) \/
   result (fetch_commit check_output commit) = Raise ValueError).
Proof.
  intros Hout.
  assert (E : result (fetch_commit check_output commit)
              = result (unpack4 (split_max LF 3 (drop_extra_lf output)))).
  { unfold fetch_commit, run_check_output. rewrite Hout. cbn [bind].
    now destruct (unpack4 _). }
  rewrite E.
  split; [apply drop_extra_lf_spec|]. split; [apply drop_extra_lf_spec|]. split.
  - intros a b c d. rewrite <- split_max_four.
    destruct (split_max LF 3 (drop_extra_lf output)) as [|w [|x [|y [|z [|u us]]]]];
      cbn; split; intros H; try discriminate; congruence.
  - destruct (split_max LF 3 (drop_extra_lf output)) as [|w [|x [|y [|z [|u us]]]]];
      cbn; try (now right). left. eexists. reflexivity.
Qed.

End CommitFetcher.

(** ** The Driver *)

(** Whether [verify_name] accepts; it always returns. *)
Definition name_accepted (name : str) : bool :=
  negb (str_in (strip (lower name)) forbidden_names).

Lemma verify_name_result (name : str) :
  result (verify_name name) = Return (name_accepted name).
Proof.
  rewrite verify_name_run. cbv zeta. unfold name_accepted.
  destruct (str_in _ _); [reflexivity|]. now destruct (contains _ _).
Qed.

(** The first line of the instructions on the git identity. *)
Definition instructions_head : event :=
  Stdout (lit "To configure your name and email for git, run:").

Definition instructions_printed (out : list event) : Prop := In instructions_head out.

(** The Name Validator prints the instructions with its warning, and only
    then. *)
Lemma verify_name_instructions (name : str) :
  instructions_printed (output (verify_name name)) <->
  name_accepted name = true /\ ~ In " "%char (strip (lower name)).
Proof.
  rewrite <- contains_char, verify_name_run. cbv zeta. unfold name_accepted.
  change [" "%char] with (lit " ").
  destruct (str_in _ _); [|destruct (contains _ _)];
    unfold instructions_printed; cbn [output fst negb].
  - split; [intros [] | intros [H _]; discriminate].
  - split; [intros [] | intros [_ H]; now contradiction H].
  - split; [intros _; split; [reflexivity | discriminate]|].
    intros _. right. now left.
Qed.

(** What the driver prints on the author, after the validators' own output. *)
Definition disallowed_name (author_name : str) : list event :=
  if name_accepted author_name then []
  else [Stdout (lit "Disallowed author name: " ++ author_name)].

Definition disallowed_email (author_email : str) : list event :=
  if verify_email author_email then []
  else [Stdout (lit "Disallowed author email address: " ++ author_email)].

Definition driver_instructions (author_name author_email : str) : list event :=
  if name_accepted author_name && verify_email author_email then []
  else output print_git_user_instructions.

(** The output of the driver up to the Body Validator. *)
Definition identity_output (author_name author_email : str) : list event :=
  output (verify_name author_name)
  ++ disallowed_name author_name
  ++ disallowed_email author_email
  ++ driver_instructions author_name author_email.

Lemma disallowed_name_no_instructions (author_name : str) :
  ~ instructions_printed (disallowed_name author_name).
Proof.
  unfold disallowed_name, instructions_printed.
  destruct (name_accepted author_name); [easy|]. intros [H | []]. discriminate H.
Qed.

Lemma disallowed_email_no_instructions (author_email : str) :
  ~ instructions_printed (disallowed_email author_email).
Proof.
  unfold disallowed_email, instructions_printed.
  destruct (verify_email author_email); [easy|]. intros [H | []]. discriminate H.
Qed.

(** The driver's own instructions: exactly when the name or the email failed. *)
Lemma driver_instructions_printed (author_name author_email : str) :
  instructions_printed (driver_instructions author_name author_email) <->
  name_accepted author_name = false \/ verify_email author_email = false.
Proof.
  unfold driver_instructions, instructions_printed.
  destruct (name_accepted author_name), (verify_email author_email); cbn [andb].
  - split; [intros [] | intros [H | H]; discriminate H].
  - split; [now right | intros _; now left].
  - split; [now left | intros _; now left].
  - split; [now left | intros _; now left].
Qed.

Lemma identity_output_instructions (author_name author_email : str) :
  instructions_printed (identity_output author_name author_email) <->
  name_accepted author_name = false \/ verify_email author_email = false \/
  ~ In " "%char (strip (lower author_name)).
Proof.
  unfold identity_output, instructions_printed. rewrite !in_app_iff.
  fold (instructions_printed (output (verify_name author_name))).
  fold (instructions_printed (disallowed_name author_name)).
  fold (instructions_printed (disallowed_email author_email)).
  fold (instructions_printed (driver_instructions author_name author_email)).
  rewrite verify_name_instructions, driver_instructions_printed.
  pose proof (disallowed_name_no_instructions author_name).
  pose proof (disallowed_email_no_instructions author_email).
  destruct (name_accepted author_name); intuition congruence.
Qed.

Section Driver.

Variable check_output : list str -> outcome str.
Variable communicate : list str -> str -> outcome str.
Variable unified_diff : list str -> list str -> str -> str -> list str.
Variable script_file : str.

Local Abbreviation run_main := (main check_output communicate unified_diff script_file).
Local Abbreviation run_script := (script check_output communicate unified_diff script_file).

(** The line that says which commit is checked, for a direct call. *)
Definition checking_commit (abbrev body : str) : list event :=
  if endswith (lit ".py") script_file
  then [Stdout (lit "Checking commit: " ++ abbrev ++ lit " " ++ hd [] (split_max LF 1 body))]
  else [].

Definition exit_status (name_ok email_ok body_ok : bool) : Z :=
  if name_ok && email_ok && body_ok then 0%Z else 1%Z.

Lemma fetch_commit_run (commit : str) :
  fetch_commit check_output commit =
  match check_output (show_cmd commit) with
  | Return output =>
      ([Spawn (show_cmd commit) None],
       result (unpack4 (split_max LF 3 (drop_extra_lf output))))
  | Raise e => ([Spawn (show_cmd commit) None], Raise e)
  end.
Proof.
  unfold fetch_commit, run_check_output.
  destruct (check_output (show_cmd commit)) as [o|e]; cbn [bind]; [|reflexivity].
  destruct (split_max LF 3 (drop_extra_lf o)) as [|w [|x [|y [|z [|u us]]]]]; reflexivity.
Qed.

(** [main] once the commit is fetched. *)
Lemma main_run (commit abbrev author_name author_email body : str) (fetched : list event) :
  fetch_commit check_output commit
  = (fetched, Return (abbrev, author_name, author_email, body)) ->
  run_main commit =
  (fetched ++ checking_commit abbrev body
     ++ identity_output author_name author_email
     ++ output (verify_body communicate unified_diff body),
   match result (verify_body communicate unified_diff body) with
   | Return body_ok =>
       Return (exit_status (name_accepted author_name) (verify_email author_email) body_ok)
   | Raise e => Raise e
   end).
Proof.
  intros H. unfold main. rewrite H. cbn [bind].
  unfold checking_commit, identity_output, disallowed_name, disallowed_email,
    driver_instructions, exit_status, name_accepted.
  rewrite verify_name_run. cbv zeta.
  destruct (verify_body communicate unified_diff body) as [vb [body_ok | e]];
    destruct (endswith (lit ".py") script_file);
    destruct (str_in _ _); [| destruct (contains _ _) | | destruct (contains _ _)
                            | | destruct (contains _ _) | | destruct (contains _ _) ];
    destruct (verify_email author_email); try destruct body_ok;
    cbn [bind ret when print emit negb andb Z.eqb output result fst snd app];
    rewrite ?app_nil_r; reflexivity.
Qed.

(** The exit status is 0 exactly when the three validators pass. *)
Lemma exit_status_zero (name_ok email_ok body_ok : bool) :
  exit_status name_ok email_ok body_ok = 0%Z <->
  name_ok = true /\ email_ok = true /\ body_ok = true.
Proof. destruct name_ok, email_ok, body_ok; cbn; intuition congruence. Qed.

Lemma exit_status_one (name_ok email_ok body_ok : bool) :
  exit_status name_ok email_ok body_ok = 1%Z <->
  name_ok = false \/ email_ok = false \/ body_ok = false.
Proof. destruct name_ok, email_ok, body_ok; cbn; intuition congruence. Qed.

(** C3, as amended.  When the query fails, the script prints the error and
    exits with the return code of the query; when the query or the Body
    Validator is interrupted, it exits with 130.  When the commit is fetched
    and the Body Validator returns: the Name Validator returns too, and the
    driver returns 0 exactly when the three validators pass and 1 exactly
    when one of them fails; the three are run whatever the others found
    (the output holds the Name Validator's and the Body Validator's, and the
    status counts the three); and the driver itself prints the instructions
    on the git identity exactly when the name or the email was rejected.
    The Name Validator prints them as well, with its warning, for an
    accepted name with no space: before the Body Validator starts, the
    instructions are in the output exactly when the name or the email was
    rejected or the name, lower-cased and trimmed, has no space. *)
Theorem main_exit_status (commit : str) :
  (forall returncode msg,
      check_output (show_cmd commit) = Raise (CalledProcessError returncode msg) ->
      run_script commit
      = ([Spawn (show_cmd commit) None; Stdout ([LF] ++ msg)], returncode)) /\
  (check_output (show_cmd commit) = Raise KeyboardInterrupt ->
   snd (run_script commit) = 130%Z) /\
  (forall abbrev author_name author_email body fetched,
      fetch_commit check_output commit
      = (fetched, Return (abbrev, author_name, author_email, body)) ->
      (result (verify_body communicate unified_diff body) = Raise KeyboardInterrupt ->
       snd (run_script commit) = 130%Z) /\
      (forall body_ok,
          result (verify_body communicate unified_diff body) = Return body_ok ->
          let name_ok := name_accepted author_name in
          let email_ok := verify_email author_email in
          result (verify_name author_name) = Return name_ok /\
          result (run_main commit) = Return (exit_status name_ok email_ok body_ok) /\
          snd (run_script commit) = exit_status name_ok email_ok body_ok /\
          (exit_status name_ok email_ok body_ok = 0%Z <->
           name_ok = true /\ email_ok = true /\ body_ok = true) /\
          (exit_status name_ok email_ok body_ok = 1%Z <->
           name_ok = false \/ email_ok = false \/ body_ok = false) /\
          output (run_main commit)
          = fetched ++ checking_commit abbrev body
              ++ (output (verify_name author_name)
                    ++ disallowed_name author_name
                    ++ disallowed_email author_email
                    ++ driver_instructions author_name author_email)
              ++ output (verify_body communicate unified_diff body) /\
          (instructions_printed (driver_instructions author_name author_email) <->
           name_ok = false \/ email_ok = false) /\
          (instructions_printed (identity_output author_name author_email) <->
           name_ok = false \/ email_ok = false \/
           ~ In " "%char (strip (lower author_name))))).
Proof.
  split; [|split].
  - intros rc msg H. unfold script, main.
    rewrite fetch_commit_run, H. reflexivity.
  - intros H. unfold script, main. rewrite fetch_commit_run, H. reflexivity.
  - intros abbrev author_name author_email body fetched Hfetch.
    pose proof (main_run _ _ _ _ _ _ Hfetch) as Hmain. split.
    + intros H. unfold script. rewrite Hmain, H. reflexivity.
    + intros body_ok H. cbv zeta. rewrite H in Hmain.
      split; [apply verify_name_result|].
      split; [now rewrite Hmain|].
      split; [unfold script; now rewrite Hmain|].
      split; [apply exit_status_zero|].
      split; [apply exit_status_one|].
      split; [now rewrite Hmain|].
      split; [apply driver_instructions_printed | apply identity_output_instructions].
Qed.

(** C10. The Body Validator is partial: the empty body has no line, and the
    access to the first line raises IndexError, before anything is printed
    or started; a body that is not empty gets through the format checks.
    The driver hands the body over as it was fetched: for a commit with an
    empty body, [main] raises IndexError after the diagnostics on the
    author, and the script ends on the interpreter's report, with status 1. *)
Theorem verify_body_empty (commit : str) :
  splitlines [] = [] /\
  verify_body communicate unified_diff [] = ([], Raise IndexError) /\
  (forall body, body <> [] ->
                exists checks is_good,
                  format_checks (splitlines body) = (checks, Return is_good)) /\
  (forall abbrev author_name author_email fetched,
      fetch_commit check_output commit
      = (fetched, Return (abbrev, author_name, author_email, [])) ->
      result (run_main commit) = Raise IndexError /\
      run_script commit
      = (fetched ++ checking_commit abbrev []
           ++ identity_output author_name author_email
           ++ [Traceback IndexError], 1%Z)).
Proof.
  split; [reflexivity|]. split; [reflexivity|]. split.
  - intros body Hbody.
    destruct (splitlines_first body Hbody) as (first & rest & ->).
    rewrite format_checks_run. eexists _, _. reflexivity.
  - intros abbrev author_name author_email fetched Hfetch.
    pose proof (main_run _ _ _ _ _ _ Hfetch) as Hmain.
    change (verify_body communicate unified_diff []) with (@nil event, @Raise bool IndexError) in Hmain.
    cbn [output result fst snd] in Hmain.
    unfold script. rewrite Hmain. split; [reflexivity|].
    now rewrite <- !app_assoc.
Qed.

End Driver.

(** ** Concrete runs *)

(** A world for the examples: a query with a fixed output, a [git
    stripspace] that returns its input, or that cannot be started, and a
    diff that is never needed. *)
Definition query_giving (text : str) : list str -> outcome str :=
  fun _ => Return text.

Definition stripspace_same : list str -> str -> outcome str :=
  fun _ body => Return body.

Definition stripspace_missing : list str -> str -> outcome str :=
  fun _ _ => Raise (OSError (lit "[Errno 2] No such file or directory: 'git'")).

Definition no_diff : list str -> list str -> str -> str -> list str :=
  fun _ _ _ _ => [].

Definition fix_bug_body : str := lit "fix: bug" ++ [LF; LF] ++ lit "The details." ++ [LF].

Definition long_subject : str := repeat "x"%char 90.

Definition issue_body : str := lit "fix: bug" ++ [LF] ++ lit "Bug: 1234" ++ [LF].

Definition commit_text (author_name author_email body : str) : str :=
  lit "abc1234" ++ [LF] ++ author_name ++ [LF] ++ author_email ++ [LF] ++ body ++ [LF].

Lemma verify_email_accepts_witness : acceptable_email (lit "dev@realmail.org").
Proof. apply (proj1 verify_email_accepts). reflexivity. Defined.

Lemma verify_name_denylist_witness : denied_name (lit " USER ").
Proof.
  apply (proj1 (proj1 verify_name_denylist (lit " USER "))). reflexivity.
Defined.

Lemma extract_subject_unwraps_witness :
  extract_subject (prefix ++ (prefix ++ lit "fix: bug" ++ suffix) ++ suffix ++ [LF])
  = lit "fix: bug".
Proof.
  apply (proj2 (proj2 (proj2 (proj2 (proj2 (extract_subject_unwraps _)))))
           (lit "fix: bug") [LF]).
  - intros [[t H] _]. discriminate H.
  - apply Forall_cons; [now right | apply Forall_nil].
  - reflexivity.
Defined.

Lemma verify_body_issue_line_witness :
  exists (checks : list event) (is_good : bool),
    format_checks (splitlines issue_body) = (checks, Return is_good) /\
    verify_body stripspace_same no_diff issue_body
    = (checks ++ [Stderr issue_guidance], Return false) /\
    forall e, In e (output (verify_body stripspace_same no_diff issue_body)) ->
              is_spawn e = false.
Proof.
  apply verify_body_issue_line.
  - discriminate.
  - exists (lit "Bug: 1234" ++ [LF]). split.
    + vm_compute. right. left. reflexivity.
    + left. exists (lit " 1234" ++ [LF]). reflexivity.
Defined.

Lemma verify_body_format_failure_witness :
  marked_failing stripspace_same no_diff (lit "fix: bug" ++ [LF] ++ lit "not blank") /\
  marked_failing stripspace_same no_diff long_subject.
Proof.
  split.
  - apply (proj1 (verify_body_format_failure stripspace_same no_diff
                    (lit "fix: bug" ++ [LF] ++ lit "not blank") ltac:(discriminate))
             (lit "not blank")).
    + reflexivity.
    + intros H. inversion H as [|c l Hc Hl]. discriminate Hc.
  - apply (proj2 (verify_body_format_failure stripspace_same no_diff
                    long_subject ltac:(discriminate))
             long_subject).
    + reflexivity.
    + vm_compute. lia.
Defined.

Lemma verify_body_stripspace_unavailable_witness :
  exists (checks : list event) (is_good : bool),
    format_checks (splitlines long_subject) = (checks, Return is_good) /\
    verify_body stripspace_missing no_diff long_subject
    = (checks ++ [Spawn stripspace_cmd (Some long_subject);
                  Stdout (lit "Warning: unable to invoke git stripspace: "
                            ++ lit "[Errno 2] No such file or directory: 'git'")],
       Return is_good).
Proof.
  apply verify_body_stripspace_unavailable.
  - discriminate.
  - intros line [<- | []] [[t H] | [t H]]; discriminate H.
  - reflexivity.
Defined.

Lemma verify_body_normalized_passes_witness :
  result (verify_body stripspace_same no_diff fix_bug_body) = Return true.
Proof.
  apply verify_body_normalized_passes.
  - intros s t H. injection H as ->. reflexivity.
  - discriminate.
  - reflexivity.
  - intros second H. injection H as <-. repeat constructor.
  - intros first H. injection H as <-. vm_compute. lia.
  - intros line [<- | [<- | [<- | []]]] [[t H] | [t H]]; discriminate H.
Defined.

Lemma fetch_commit_fields_witness :
  result (fetch_commit
            (query_giving (commit_text (lit "Jane Doe") (lit "dev@realmail.org") fix_bug_body))
            (lit "HEAD"))
  = Return (lit "abc1234", lit "Jane Doe", lit "dev@realmail.org", fix_bug_body).
Proof.
  apply (proj1 (proj2 (proj2 (fetch_commit_fields
                                (query_giving (commit_text (lit "Jane Doe")
                                                 (lit "dev@realmail.org") fix_bug_body))
                                (lit "HEAD") _ eq_refl)))).
  split; [reflexivity|].
  repeat split; vm_compute; intuition discriminate.
Defined.

Lemma main_exit_status_witness :
  snd (script (query_giving (commit_text (lit "root") (lit "a@b.local") fix_bug_body))
         stripspace_same no_diff (lit "validate-commit.py") (lit "HEAD"))
  = 1%Z.
Proof.
  destruct (main_exit_status
              (query_giving (commit_text (lit "root") (lit "a@b.local") fix_bug_body))
              stripspace_same no_diff (lit "validate-commit.py") (lit "HEAD"))
    as (_ & _ & H).
  destruct (H (lit "abc1234") (lit "root") (lit "a@b.local") fix_bug_body _ eq_refl)
    as [_ H'].
  destruct (H' true eq_refl) as (_ & _ & Hs & _). exact Hs.
Defined.

Lemma verify_body_empty_witness :
  snd (script (query_giving (commit_text (lit "Jane Doe") (lit "dev@realmail.org") []))
         stripspace_same no_diff (lit "validate-commit.py") (lit "HEAD"))
  = 1%Z.
Proof.
  destruct (verify_body_empty
              (query_giving (commit_text (lit "Jane Doe") (lit "dev@realmail.org") []))
              stripspace_same no_diff (lit "validate-commit.py") (lit "HEAD"))
    as (_ & _ & _ & H).
  destruct (H (lit "abc1234") (lit "Jane Doe") (lit "dev@realmail.org") _ eq_refl)
    as [_ Hs].
  now rewrite Hs.
Defined.

(** The sentence of the spec on the instructions, for one run: they are
    printed exactly when the name or the email check failed. *)
Definition instructions_iff_identity_failed
    (author_name author_email : str) (out : list event) : Prop :=
  instructions_printed out <->
  result (verify_name author_name) = Return false \/ verify_email author_email = false.

(** C3, as the spec states it, fails for the author jdoe: the name and the
    email pass, the body passes and the driver returns 0, and yet the
    instructions are printed, by the Name Validator with its warning. *)
Lemma main_instructions_counterexample :
  let run := main (query_giving (commit_text (lit "jdoe") (lit "dev@realmail.org") fix_bug_body))
               stripspace_same no_diff (lit "validate-commit.py") (lit "HEAD") in
  result (verify_name (lit "jdoe")) = Return true /\
  verify_email (lit "dev@realmail.org") = true /\
  result run = Return 0%Z /\
  ~ instructions_iff_identity_failed (lit "jdoe") (lit "dev@realmail.org") (output run).
Proof.
  cbv zeta. split; [reflexivity|]. split; [reflexivity|]. split; [reflexivity|].
  intros [H _].
  assert (Hin : instructions_printed
                  (output (main (query_giving (commit_text (lit "jdoe")
                                                 (lit "dev@realmail.org") fix_bug_body))
                             stripspace_same no_diff (lit "validate-commit.py") (lit "HEAD")))).
  { vm_compute. right. right. right. now left. }
  destruct (H Hin) as [E | E]; discriminate E.
Qed.

(** * Further properties of the script *)

(** ** Letter case and surrounding white space *)

Lemma lower_char_space (c : ascii) : isspace_char (lower_char c) = isspace_char c.
Proof. destruct c as [[] [] [] [] [] [] [] []]; reflexivity. Qed.

Lemma lower_app (s t : str) : lower (s ++ t) = lower s ++ lower t.
Proof. apply map_app. Qed.

Lemma lower_blank (s : str) : blank s -> blank (lower s).
Proof.
  unfold blank, lower. intros H. apply Forall_map.
  apply (Forall_impl _ (P := fun c => isspace_char c = true)); [|exact H].
  intros c Hc. now rewrite lower_char_space.
Qed.

Lemma blank_forallb (s : str) : blank s <-> forallb isspace_char s = true.
Proof. unfold blank. now rewrite forallb_forall, Forall_forall. Qed.

Lemma lstrip_by_pad (p : ascii -> bool) (a s : str) :
  forallb p a = true -> lstrip_by p (a ++ s) = lstrip_by p s.
Proof.
  induction a as [|c a IH]; simpl; [reflexivity|]. intros H.
  apply andb_prop in H as [Hc Ha]. rewrite Hc. now apply IH.
Qed.

Lemma rstrip_by_pad_right (p : ascii -> bool) (s b : str) :
  forallb p b = true -> rstrip_by p (s ++ b) = rstrip_by p s.
Proof.
  intros Hb. induction s as [|c s IH]; simpl.
  - now apply rstrip_by_all.
  - now rewrite IH.
Qed.

Lemma rstrip_by_pad_left (p : ascii -> bool) (a s : str) :
  rstrip_by p s <> [] -> rstrip_by p (a ++ s) = a ++ rstrip_by p s.
Proof.
  intros Hs. induction a as [|c a IH]; simpl; [reflexivity|].
  rewrite IH. destruct (a ++ rstrip_by p s) eqn:E; [|reflexivity].
  apply app_eq_nil in E as [_ E]. contradiction.
Qed.

Lemma rstrip_by_nil (p : ascii -> bool) (s : str) :
  rstrip_by p s = [] <-> forallb p s = true.
Proof.
  split; [|apply rstrip_by_all].
  intros H. destruct (rstrip_by_tail p s) as (t & Hs & Ht).
  rewrite H in Hs. simpl in Hs. now subst.
Qed.

(** White space around a string does not change what [strip] leaves. *)
Lemma strip_pad (a s b : str) : blank a -> blank b -> strip (a ++ s ++ b) = strip s.
Proof.
  rewrite !blank_forallb. intros Ha Hb. unfold strip.
  rewrite app_assoc, rstrip_by_pad_right by exact Hb.
  destruct (rstrip_by isspace_char s) as [|x r] eqn:E.
  - apply rstrip_by_nil in E.
    rewrite rstrip_by_all; [reflexivity|]. now rewrite forallb_app, Ha, E.
  - rewrite rstrip_by_pad_left, E by (rewrite E; discriminate).
    now apply lstrip_by_pad.
Qed.

(** Two strings alike up to letter case and surrounding white space are the
    same once lower-cased and trimmed. *)
Lemma normalize_pad (s1 s2 pre post : str) :
  blank pre -> blank post -> lower s1 = lower s2 ->
  strip (lower (pre ++ s1 ++ post)) = strip (lower s2).
Proof.
  intros Hpre Hpost E. rewrite !lower_app, E.
  apply strip_pad; now apply lower_blank.
Qed.

(** X1. The Email Validator gives one verdict to two addresses that differ
    in the case of their letters and in white space before and after
    only. *)
Theorem verify_email_case_space (email1 email2 pre post : str) :
  blank pre -> blank post -> lower email1 = lower email2 ->
  verify_email (pre ++ email1 ++ post) = verify_email email2.
Proof.
  intros Hpre Hpost E. unfold verify_email. cbv zeta.
  now rewrite (normalize_pad _ _ _ _ Hpre Hpost E).
Qed.

(** X2. The Name Validator does the same for two names that differ in the
    case of their letters and in white space before and after only: the
    same result, and the same output. *)
Theorem verify_name_case_space (name1 name2 pre post : str) :
  blank pre -> blank post -> lower name1 = lower name2 ->
  verify_name (pre ++ name1 ++ post) = verify_name name2.
Proof.
  intros Hpre Hpost E. rewrite !verify_name_run. cbv zeta.
  now rewrite (normalize_pad _ _ _ _ Hpre Hpost E).
Qed.

(** X3. The Email Validator never looks at the user part: two addresses
    that, lower-cased and trimmed, have the same text after their first [@]
    get the same verdict, whatever stands before it, nothing included. *)
Theorem verify_email_user_unchecked (email1 email2 user1 user2 rest : str) :
  strip (lower email1) = user1 ++ "@"%char :: rest ->
  strip (lower email2) = user2 ++ "@"%char :: rest ->
  ~ In "@"%char user1 -> ~ In "@"%char user2 ->
  verify_email email1 = verify_email email2.
Proof.
  intros E1 E2 H1 H2. unfold verify_email. cbv zeta.
  rewrite E1, E2, !split_app_sep by assumption.
  destruct (split "@" rest) as [|host [|x xs]]; reflexivity.
Qed.

(** ** The cleaned subject and the line it comes from *)

(** A contiguous part of a string. *)
Definition part_of (t s : str) : Prop := exists a b, s = a ++ t ++ b.

Lemma part_of_refl (s : str) : part_of s s.
Proof. exists [], []. simpl. now rewrite app_nil_r. Qed.

Lemma part_of_trans (u t s : str) : part_of u t -> part_of t s -> part_of u s.
Proof.
  intros (a & b & ->) (c & d & ->). exists (c ++ a), (b ++ d).
  now rewrite <- !app_assoc.
Qed.

Lemma part_of_length (t s : str) : part_of t s -> length t <= length s.
Proof. intros (a & b & ->). rewrite !length_app. lia. Qed.

Lemma firstn_skipn_part_of (n k : nat) (s : str) : part_of (firstn n (skipn k s)) s.
Proof.
  exists (firstn k s), (skipn n (skipn k s)).
  now rewrite firstn_skipn, firstn_skipn.
Qed.

Lemma slice_part_of (s : str) (start stop : Z) : part_of (slice s start stop) s.
Proof. unfold slice. apply firstn_skipn_part_of. Qed.

Lemma unwrap_part_of (s : str) : part_of (unwrap s) s.
Proof.
  funelim (unwrap s); [|apply part_of_refl].
  eapply part_of_trans; [eassumption | apply slice_part_of].
Qed.

Lemma extract_subject_part_of (s : str) : part_of (extract_subject s) s.
Proof.
  unfold extract_subject. eapply part_of_trans; [apply unwrap_part_of|].
  destruct (rstrip_by_tail is_crlf s) as (t & Hs & _).
  exists [], t. exact Hs.
Qed.

(** X4. The cleaned subject is a contiguous part of the line it is taken
    from, so it is no longer than the line: a first line of at most 80
    characters, its line ending counted, is never reported as too long. *)
Theorem extract_subject_within_line (line : str) :
  part_of (extract_subject line) line /\
  length (extract_subject line) <= length line /\
  (length line <= 80 -> subject_too_long line = false).
Proof.
  pose proof (extract_subject_part_of line) as H.
  pose proof (part_of_length _ _ H) as Hlen.
  split; [exact H|]. split; [exact Hlen|].
  intros Hline. apply Nat.ltb_ge. lia.
Qed.

Lemma rstrip_by_keep (p : ascii -> bool) (s : str) :
  (forall q c, s = q ++ [c] -> p c = false) -> rstrip_by p s = s.
Proof.
  intros H. rewrite <- (app_nil_r s) at 1. now apply rstrip_by_app.
Qed.

(** X5. A Revert wrapper is transparent: for a text that does not end in
    CR or LF, the line of the revert (the prefix, the text, the closing
    quote, then CR and LF characters or none) has the cleaned subject of
    the text itself; so the revert of a subject that passes the length
    check passes it too, though its line is 9 characters longer. *)
Theorem extract_subject_of_revert (text ending : str) :
  ~ ends_with [CR] text -> ~ ends_with [LF] text ->
  Forall (fun c => c = CR \/ c = LF) ending ->
  extract_subject (prefix ++ text ++ suffix ++ ending) = extract_subject text /\
  subject_too_long (prefix ++ text ++ suffix ++ ending) = subject_too_long text.
Proof.
  intros Hcr Hlf Hend.
  assert (E : extract_subject (prefix ++ text ++ suffix ++ ending) = extract_subject text).
  { unfold extract_subject.
    replace (prefix ++ text ++ suffix ++ ending)
      with ((prefix ++ text ++ suffix) ++ ending) by now rewrite <- !app_assoc.
    rewrite rstrip_by_app.
    - rewrite unwrap_wrapper. f_equal. symmetry. apply rstrip_by_keep.
      intros q c ->. apply not_true_is_false. intros Hc.
      apply is_crlf_spec in Hc as [-> | ->]; [apply Hcr | apply Hlf]; now exists q.
    - apply forallb_forall. intros c Hc. apply is_crlf_spec.
      rewrite Forall_forall in Hend. now apply Hend.
    - intros q c Hq. rewrite !app_assoc in Hq.
      apply app_inj_tail in Hq as [_ <-]. reflexivity. }
  split; [exact E|]. unfold subject_too_long. now rewrite E.
Qed.

(** ** The Body Validator: normalization and subprocesses *)

Lemma filter_none {A} (f : A -> bool) (l : list A) :
  forallb (fun x => negb (f x)) l = true -> filter f l = [].
Proof.
  induction l as [|x l IH]; simpl; [reflexivity|]. intros H.
  apply andb_prop in H as [Hx Hl]. apply negb_true_iff in Hx. rewrite Hx. now apply IH.
Qed.

(** The lines printed when the normalization changes the body. *)
Definition rewrite_request (diff : list str) : list event :=
  [Stdout (lit "The commit message does not follow our standards.");
   Stdout (lit "Please rewrite it (there are likely whitespace issues):");
   Stdout (lit "");
   Stdout (join (map mark_trailing_space diff))].

Section BodyValidatorMore.

Variable communicate : list str -> str -> outcome str.
Variable unified_diff : list str -> list str -> str -> str -> list str.

(** The comparison with the normalized body, case by case. *)
Lemma stripspace_check_cases (body : str) (lines : list str) (is_good : bool) :
  stripspace_check communicate unified_diff body lines is_good =
  match communicate stripspace_cmd body with
  | Return newbody =>
      if str_eqb newbody body
      then ([Spawn stripspace_cmd (Some body)], Return is_good)
      else (Spawn stripspace_cmd (Some body)
              :: rewrite_request
                   (unified_diff lines (splitlines newbody)
                      (lit "OLD/.git/COMMIT_EDITMSG") (lit "NEW/.git/COMMIT_EDITMSG")),
            Return false)
  | Raise (OSError msg) =>
      ([Spawn stripspace_cmd (Some body);
        Stdout (lit "Warning: unable to invoke git stripspace: " ++ msg)],
       Return is_good)
  | Raise e => ([Spawn stripspace_cmd (Some body)], Raise e)
  end.
Proof.
  unfold stripspace_check, run_communicate, try_except_OSError. cbn [bind ret].
  destruct (communicate stripspace_cmd body) as [newbody | e].
  - cbn [bind ret app]. destruct (str_eqb newbody body); reflexivity.
  - destruct e; reflexivity.
Qed.

Lemma verify_body_nil : verify_body communicate unified_diff [] = ([], Raise IndexError).
Proof. reflexivity. Qed.

(** [verify_body] on a body with a first line, in full. *)
Lemma verify_body_cases (body first : str) (rest : list str) :
  splitlines body = first :: rest ->
  let is_good := negb (second_line_nonblank (splitlines body))
                 && negb (subject_too_long first) in
  verify_body communicate unified_diff body =
  let checks := output (format_checks (splitlines body)) in
  if existsb issue_line (splitlines body)
  then (checks ++ [Stderr issue_guidance], Return false)
  else (checks ++ output (stripspace_check communicate unified_diff body
                            (splitlines body) is_good),
        result (stripspace_check communicate unified_diff body (splitlines body) is_good)).
Proof.
  intros Hlines. cbv zeta.
  pose proof (format_checks_run first rest) as Hrun. cbv zeta in Hrun.
  rewrite <- Hlines in Hrun.
  rewrite (verify_body_run _ _ _ _ _ Hrun). now rewrite Hrun.
Qed.

(** X6. The Body Validator returns true in these cases only: the body is
    not empty, its second line is blank or absent, its cleaned subject has
    at most 80 characters, no line starts with Bug: or Ping-Bug:, and the
    normalization either returns the body unchanged or cannot be started
    (OSError).  In each of these cases it does return true. *)
Theorem verify_body_passes_iff (body : str) :
  result (verify_body communicate unified_diff body) = Return true <->
  body <> [] /\
  (forall second, nth_error (splitlines body) 1 = Some second -> blank second) /\
  (forall first,
      nth_error (splitlines body) 0 = Some first -> length (extract_subject first) <= 80) /\
  (forall line, In line (splitlines body) -> ~ forbidden_issue_line line) /\
  (communicate stripspace_cmd body = Return body \/
   exists msg, communicate stripspace_cmd body = Raise (OSError msg)).
Proof.
  destruct body as [|c b].
  - rewrite verify_body_nil. split; [discriminate | intros [H _]; now contradiction H].
  - set (body := c :: b).
    assert (Hbody : body <> []) by discriminate.
    destruct (splitlines_first body Hbody) as (first & rest & Hlines).
    rewrite (verify_body_cases _ _ _ Hlines). cbv zeta.
    rewrite stripspace_check_cases.
    assert (Hsecond : second_line_nonblank (splitlines body) = false <->
                      forall second, nth_error (splitlines body) 1 = Some second -> blank second).
    { rewrite (not_true_false _ _ (second_line_nonblank_spec _)). split.
      - intros H second Hnth.
        destruct (strip second) eqn:E; [now apply strip_blank|].
        exfalso. apply H. exists second. split; [exact Hnth|].
        intros Hb. apply strip_blank in Hb. congruence.
      - intros H (second & Hnth & Hb). now apply Hb, H. }
    assert (Hfirst : subject_too_long first = false <->
                     forall f, nth_error (splitlines body) 0 = Some f ->
                               length (extract_subject f) <= 80).
    { unfold subject_too_long. rewrite Nat.ltb_ge, Hlines. split.
      - intros H f Hf. now injection Hf as <-.
      - intros H. now apply H. }
    assert (Hissue : existsb issue_line (splitlines body) = false <->
                     forall line, In line (splitlines body) -> ~ forbidden_issue_line line).
    { rewrite (not_true_false _ _ (existsb_issue_line _)). split.
      - intros H line Hin Hl. apply H. now exists line.
      - intros H (line & Hin & Hl). now apply (H line). }
    rewrite <- Hsecond, <- Hfirst, <- Hissue.
    destruct (existsb issue_line (splitlines body)).
    + cbn [result snd]. split; [discriminate | intros (_ & _ & _ & H & _); discriminate H].
    + destruct (communicate stripspace_cmd body) as [newbody | e].
      * destruct (str_eqb newbody body) eqn:E; cbn [result snd].
        -- apply str_eqb_spec in E. subst newbody.
           destruct (second_line_nonblank _), (subject_too_long first); cbn [negb andb];
             split; try discriminate; try (intros (_ & H1 & H2 & _); discriminate);
             intros _; repeat split; auto.
        -- apply str_eqb_neq in E. split; [discriminate|].
           intros (_ & _ & _ & _ & [H | [msg H]]); [|discriminate H].
           injection H as ->. now contradiction E.
      * destruct e; cbn [result snd];
          try (split; [discriminate |
                       intros (_ & _ & _ & _ & [H | [m H]]); discriminate H]).
        destruct (second_line_nonblank _), (subject_too_long first); cbn [negb andb];
          split; try discriminate; try (intros (_ & H1 & H2 & _); discriminate);
          intros _; repeat split; eauto.
Qed.

(** X7. When the normalization returns another text than the body (not
    empty, no line with the forbidden issue syntax), the Body Validator
    returns false whatever the format checks found: after their output and
    the start of the subprocess it prints the request to rewrite the
    message and the diff from the lines of the body to the lines of the
    normalized text, the lines of the diff that end in white space marked,
    in one piece. *)
Theorem verify_body_rewritten (body newbody : str) :
  body <> [] ->
  (forall line, In line (splitlines body) -> ~ forbidden_issue_line line) ->
  communicate stripspace_cmd body = Return newbody ->
  newbody <> body ->
  verify_body communicate unified_diff body =
  (output (format_checks (splitlines body))
     ++ Spawn stripspace_cmd (Some body)
     :: rewrite_request
          (unified_diff (splitlines body) (splitlines newbody)
             (lit "OLD/.git/COMMIT_EDITMSG") (lit "NEW/.git/COMMIT_EDITMSG")),
   Return false).
Proof.
  intros Hbody Hissue Hret Hneq.
  destruct (splitlines_first body Hbody) as (first & rest & Hlines).
  rewrite (verify_body_cases _ _ _ Hlines). cbv zeta.
  rewrite (no_issue_line _ Hissue), stripspace_check_cases, Hret.
  apply str_eqb_neq in Hneq. now rewrite Hneq.
Qed.

(** The subprocesses of [verify_body], in the order they are started. *)
Lemma verify_body_spawns (body : str) :
  filter is_spawn (output (verify_body communicate unified_diff body)) =
  match body with
  | [] => []
  | _ :: _ =>
      if existsb issue_line (splitlines body) then []
      else [Spawn stripspace_cmd (Some body)]
  end.
Proof.
  destruct body as [|c b]; [reflexivity|].
  set (body := c :: b).
  assert (Hbody : body <> []) by discriminate.
  destruct (splitlines_first body Hbody) as (first & rest & Hlines).
  rewrite (verify_body_cases _ _ _ Hlines). cbv zeta.
  pose proof (filter_none _ _ (format_checks_no_spawn (splitlines body))) as Hchecks.
  destruct (existsb issue_line (splitlines body)); cbn [output fst];
    rewrite filter_app, Hchecks; [reflexivity|].
  rewrite stripspace_check_cases.
  destruct (communicate stripspace_cmd body) as [newbody | e].
  - destruct (str_eqb newbody body); reflexivity.
  - destruct e; reflexivity.
Qed.

(** X8. The Body Validator starts one subprocess at most, and no other
    than git stripspace fed the body as it is; it starts it exactly when
    the body is not empty and has no line starting with Bug: or
    Ping-Bug:, whatever the format checks found. *)
Theorem verify_body_subprocess (body : str) :
  let out := output (verify_body communicate unified_diff body) in
  (forall e, In e out -> is_spawn e = true -> e = Spawn stripspace_cmd (Some body)) /\
  length (filter is_spawn out) <= 1 /\
  (In (Spawn stripspace_cmd (Some body)) out <->
   body <> [] /\ forall line, In line (splitlines body) -> ~ forbidden_issue_line line).
Proof.
  cbv zeta. pose proof (verify_body_spawns body) as Hs.
  assert (Hissue : existsb issue_line (splitlines body) = false <->
                   forall line, In line (splitlines body) -> ~ forbidden_issue_line line).
  { rewrite (not_true_false _ _ (existsb_issue_line _)). split.
    - intros H line Hin Hl. apply H. now exists line.
    - intros H (line & Hin & Hl). now apply (H line). }
  rewrite <- Hissue.
  assert (Hin : forall e, In e (output (verify_body communicate unified_diff body)) /\
                          is_spawn e = true <->
                          In e (filter is_spawn (output (verify_body communicate unified_diff body))))
    by (intros e; symmetry; apply filter_In).
  split; [|split].
  - intros e He Hsp. assert (H : In e (filter is_spawn
                                         (output (verify_body communicate unified_diff body))))
      by now apply Hin.
    rewrite Hs in H. destruct body; [contradiction|].
    destruct (existsb issue_line _); [contradiction|].
    destruct H as [<- | []]. reflexivity.
  - rewrite Hs. destruct body; [simpl; lia|].
    destruct (existsb issue_line _); simpl; lia.
  - split.
    + intros H. assert (H' : In (Spawn stripspace_cmd (Some body))
                               (filter is_spawn
                                  (output (verify_body communicate unified_diff body))))
        by now apply Hin.
      rewrite Hs in H'. destruct body; [contradiction|].
      destruct (existsb issue_line _); [contradiction|]. split; [discriminate | reflexivity].
    + intros [Hbody Hno].
      assert (H' : In (Spawn stripspace_cmd (Some body))
                     (filter is_spawn
                        (output (verify_body communicate unified_diff body)))).
      { rewrite Hs. destruct body; [contradiction|]. rewrite Hno. now left. }
      now apply Hin in H'.
Qed.

End BodyValidatorMore.

(** ** The marks on the diff *)

Lemma trailing_space_spec (line : str) :
  trailing_space line = true <->
  exists pre c d, pre <> [] /\ line = pre ++ [c; d] /\ isspace_char c = true.
Proof.
  unfold trailing_space. rewrite andb_true_iff, Nat.ltb_lt. split.
  - intros [Hlen Hsp].
    set (k := length line - 2) in *.
    assert (Hk : length (skipn k line) = 2) by (rewrite length_skipn; lia).
    destruct (skipn k line) as [|c [|d [|x xs]]] eqn:E; try discriminate Hk.
    assert (Hline : line = firstn k line ++ [c; d])
      by (rewrite <- E; symmetry; apply firstn_skipn).
    exists (firstn k line), c, d. split; [|split].
    + intros H. apply (f_equal (@length ascii)) in H.
      rewrite length_firstn in H. simpl in H. lia.
    + exact Hline.
    + rewrite Hline in Hsp. rewrite app_nth2 in Hsp by (rewrite length_firstn; lia).
      rewrite length_firstn in Hsp.
      replace (k - Nat.min k (length line)) with 0 in Hsp by lia. exact Hsp.
  - intros (pre & c & d & Hpre & -> & Hsp). rewrite length_app. simpl length. split.
    + destruct pre; [contradiction | simpl; lia].
    + replace (length pre + 2 - 2) with (length pre) by lia.
      rewrite app_nth2, Nat.sub_diag by lia. exact Hsp.
Qed.

(** X9. A line of the diff, made of a sign, a text and a newline, is
    marked exactly when the text ends in white space: a line with no text
    is never marked, its sign being a space or not.  A diff with no such
    line is printed as it is. *)
Theorem mark_trailing_space_diff :
  (forall (sign : ascii) (text : str),
      trailing_space (sign :: text ++ [LF]) = true <->
      exists t c, text = t ++ [c] /\ isspace_char c = true) /\
  (forall diff : list str,
      (forall line, In line diff -> trailing_space line = false) ->
      map mark_trailing_space diff = diff).
Proof.
  split.
  - intros sign text. rewrite trailing_space_spec. split.
    + intros (pre & c & d & Hpre & E & Hsp).
      destruct pre as [|p pre]; [contradiction|]. injection E as _ E.
      change (pre ++ [c; d]) with (pre ++ [c] ++ [d]) in E. rewrite app_assoc in E.
      apply app_inj_tail in E as [E _]. now exists pre, c.
    + intros (t & c & -> & Hsp). exists (sign :: t), c, LF.
      split; [discriminate|]. split; [|exact Hsp].
      simpl. now rewrite <- app_assoc.
  - intros diff H. induction diff as [|l diff IH]; [reflexivity|].
    simpl. unfold mark_trailing_space at 1. rewrite (H l) by now left.
    rewrite IH; [reflexivity|]. intros line Hl. apply H. now right.
Qed.

(** ** The query, its fields and the exit status *)

Lemma split_max_length (sep : ascii) (n : nat) (s : str) :
  length (split_max sep n s) = Nat.min n (count_occ ascii_dec s sep) + 1.
Proof.
  revert n. induction s as [|c s IH]; intros [|m]; try reflexivity.
  cbn [split_max]. destruct (Ascii.eqb c sep) eqn:E.
  - apply Ascii.eqb_eq in E. rewrite (count_occ_cons_eq _ _ E).
    simpl length. rewrite IH. simpl. lia.
  - apply Ascii.eqb_neq in E. rewrite (count_occ_cons_neq _ _ E).
    rewrite <- IH.
    destruct (split_max sep (S m) s) eqn:Hs; [now apply split_max_nonempty in Hs|].
    reflexivity.
Qed.

Lemma unpack4_length (parts : list str) :
  length parts <> 4 -> unpack4 parts = ([], Raise ValueError).
Proof.
  destruct parts as [|w [|x [|y [|z [|u us]]]]]; simpl; intros H;
    try reflexivity. lia.
Qed.

Section DriverMore.

Variable check_output : list str -> outcome str.
Variable communicate : list str -> str -> outcome str.
Variable unified_diff : list str -> list str -> str -> str -> list str.
Variable script_file : str.

Local Abbreviation the_main := (main check_output communicate unified_diff script_file).
Local Abbreviation the_script := (script check_output communicate unified_diff script_file).

Lemma main_fetch_raise (commit : str) (fetched : list event) (e : exn) :
  fetch_commit check_output commit = (fetched, Raise e) ->
  the_main commit = (fetched, Raise e).
Proof. intros H. unfold main. now rewrite H. Qed.




(** X10. The format of the query and the parsing agree: from the output
    made of an id, a name and an email with no newline in them and the raw
    message, each followed by a newline, the fetch gives back the id, the
    name and the email, and the raw message itself as the body when the
    message is empty or ends in a newline.  For a message that is not empty
    and does not end in a newline nothing is dropped, and the body is the
    message with the newline of the query after it. *)
Theorem fetch_commit_round_trip (commit abbrev author_name author_email raw : str) :
  ~ In LF abbrev -> ~ In LF author_name -> ~ In LF author_email ->
  check_output (show_cmd commit)
  = Return (abbrev ++ LF :: author_name ++ LF :: author_email ++ LF :: raw ++ [LF]) ->
  (raw = [] \/ ends_with [LF] raw ->
   result (fetch_commit check_output commit)
   = Return (abbrev, author_name, author_email, raw)) /\
  (raw <> [] -> ~ ends_with [LF] raw ->
   result (fetch_commit check_output commit)
   = Return (abbrev, author_name, author_email, raw ++ [LF])).
Proof.
  intros Ha Hn He Hout.
  set (text := abbrev ++ LF :: author_name ++ LF :: author_email ++ LF :: raw ++ [LF]) in *.
  assert (Hfetch : forall body,
             drop_extra_lf text
             = abbrev ++ LF :: author_name ++ LF :: author_email ++ LF :: body ->
             result (fetch_commit check_output commit)
             = Return (abbrev, author_name, author_email, body)).
  { intros body E. rewrite fetch_commit_run, Hout. cbn [result snd].
    assert (S4 : split_max LF 3 (drop_extra_lf text)
                 = [abbrev; author_name; author_email; body])
      by (apply split_max_four; auto).
    now rewrite S4. }
  assert (Htext : text = (abbrev ++ LF :: author_name ++ LF :: author_email ++ LF :: raw) ++ [LF]).
  { unfold text. rewrite <- !app_assoc. simpl. rewrite <- !app_assoc. simpl.
    now rewrite <- !app_assoc. }
  destruct (drop_extra_lf_spec text) as [Hdrop Hkeep]. split.
  - intros Hraw. apply Hfetch.
    assert (Hends : ends_with [LF; LF] text).
    { destruct Hraw as [-> | [r ->]].
      - exists (abbrev ++ LF :: author_name ++ LF :: author_email). unfold text.
        rewrite <- !app_assoc. simpl. rewrite <- !app_assoc. reflexivity.
      - exists (abbrev ++ LF :: author_name ++ LF :: author_email ++ LF :: r). unfold text.
        rewrite <- !app_assoc. simpl. rewrite <- !app_assoc. simpl.
        now rewrite <- !app_assoc. }
    apply Hdrop in Hends. rewrite Htext in Hends at 1.
    apply app_inj_tail in Hends as [Hends _]. now symmetry.
  - intros Hne Hnl. apply Hfetch. rewrite Hkeep; [reflexivity|].
    intros [t Ht]. rewrite Htext in Ht.
    change (t ++ [LF; LF]) with (t ++ [LF] ++ [LF]) in Ht. rewrite app_assoc in Ht.
    apply app_inj_tail in Ht as [Ht _].
    destruct (exists_last Hne) as (r & c & ->).
    change (abbrev ++ LF :: author_name ++ LF :: author_email ++ LF :: r ++ [c])
      with (abbrev ++ LF :: author_name ++ LF :: (author_email ++ LF :: r ++ [c])) in Ht.
    replace (abbrev ++ LF :: author_name ++ LF :: author_email ++ LF :: r ++ [c])
      with ((abbrev ++ LF :: author_name ++ LF :: author_email ++ LF :: r) ++ [c]) in Ht.
    + apply app_inj_tail in Ht as [_ ->]. apply Hnl. now exists r.
    + rewrite <- !app_assoc. simpl. rewrite <- !app_assoc. simpl.
      now rewrite <- !app_assoc.
Qed.

(** X11. An output of the query with fewer than three newlines, the extra
    one dropped, cannot be unpacked into the four fields: [main] raises
    ValueError right after the query, no validator runs and nothing is
    printed, and the script ends on the interpreter's report with status
    1. *)
Theorem main_too_few_fields (commit text : str) :
  check_output (show_cmd commit) = Return text ->
  count_occ ascii_dec (drop_extra_lf text) LF < 3 ->
  the_main commit = ([Spawn (show_cmd commit) None], Raise ValueError) /\
  the_script commit
  = ([Spawn (show_cmd commit) None; Traceback ValueError], 1%Z).
Proof.
  intros Hout Hcount.
  assert (Hfetch : fetch_commit check_output commit
                   = ([Spawn (show_cmd commit) None], Raise ValueError)).
  { rewrite fetch_commit_run, Hout, unpack4_length; [reflexivity|].
    rewrite split_max_length. lia. }
  pose proof (main_fetch_raise _ _ _ Hfetch) as Hmain.
  split; [exact Hmain|]. unfold script. now rewrite Hmain.
Qed.




End DriverMore.

(** ** More concrete runs *)

(** A [git stripspace] that answers with a fixed text. *)
Definition stripspace_giving (text : str) : list str -> str -> outcome str :=
  fun _ _ => Return text.

Definition spaced_body : str := lit "fix: bug " ++ [LF].

Lemma verify_email_case_space_witness :
  verify_email (lit "  " ++ lit "Dev@RealMail.ORG" ++ lit " ")
  = verify_email (lit "dev@realmail.org").
Proof.
  apply verify_email_case_space.
  - repeat constructor.
  - repeat constructor.
  - reflexivity.
Defined.

Lemma verify_name_case_space_witness :
  verify_name ([LF] ++ lit "ROOT" ++ lit "  ") = verify_name (lit "root").
Proof.
  apply verify_name_case_space.
  - repeat constructor.
  - repeat constructor.
  - reflexivity.
Defined.

Lemma verify_email_user_unchecked_witness :
  verify_email (lit "@realmail.org") = verify_email (lit "dev@realmail.org").
Proof.
  apply (verify_email_user_unchecked _ _ [] (lit "dev") (lit "realmail.org")).
  - reflexivity.
  - reflexivity.
  - intros [].
  - vm_compute. intuition discriminate.
Defined.

Lemma extract_subject_within_line_witness :
  subject_too_long (lit "fix: bug" ++ [LF]) = false.
Proof.
  apply (proj2 (proj2 (extract_subject_within_line (lit "fix: bug" ++ [LF])))).
  vm_compute. lia.
Defined.

Lemma extract_subject_of_revert_witness :
  extract_subject (prefix ++ lit "fix: bug" ++ suffix ++ [CR; LF])
  = extract_subject (lit "fix: bug") /\
  subject_too_long (prefix ++ lit "fix: bug" ++ suffix ++ [CR; LF])
  = subject_too_long (lit "fix: bug").
Proof.
  apply extract_subject_of_revert.
  - intros [t H]. apply (f_equal (@rev ascii)) in H. rewrite rev_app_distr in H.
    discriminate H.
  - intros [t H]. apply (f_equal (@rev ascii)) in H. rewrite rev_app_distr in H.
    discriminate H.
  - apply Forall_cons; [now left|]. apply Forall_cons; [now right | apply Forall_nil].
Defined.

Lemma verify_body_rewritten_witness :
  result (verify_body (stripspace_giving (lit "fix: bug" ++ [LF])) no_diff spaced_body)
  = Return false.
Proof.
  rewrite (verify_body_rewritten (stripspace_giving (lit "fix: bug" ++ [LF])) no_diff
             spaced_body (lit "fix: bug" ++ [LF])).
  - reflexivity.
  - discriminate.
  - intros line [<- | []] [[t H] | [t H]]; discriminate H.
  - reflexivity.
  - discriminate.
Defined.

Lemma fetch_commit_round_trip_witness :
  result (fetch_commit
            (query_giving (commit_text (lit "Jane Doe") (lit "dev@realmail.org") fix_bug_body))
            (lit "HEAD"))
  = Return (lit "abc1234", lit "Jane Doe", lit "dev@realmail.org", fix_bug_body) /\
  result (fetch_commit
            (query_giving (commit_text (lit "Jane Doe") (lit "dev@realmail.org") (lit "fix: bug")))
            (lit "HEAD"))
  = Return (lit "abc1234", lit "Jane Doe", lit "dev@realmail.org", lit "fix: bug" ++ [LF]).
Proof.
  split.
  - apply (proj1 (fetch_commit_round_trip
                    (query_giving (commit_text (lit "Jane Doe") (lit "dev@realmail.org")
                                     fix_bug_body))
                    (lit "HEAD") (lit "abc1234") (lit "Jane Doe") (lit "dev@realmail.org")
                    fix_bug_body
                    ltac:(vm_compute; intuition discriminate)
                    ltac:(vm_compute; intuition discriminate)
                    ltac:(vm_compute; intuition discriminate)
                    eq_refl)).
    right. exists (lit "fix: bug" ++ [LF; LF] ++ lit "The details."). reflexivity.
  - apply (proj2 (fetch_commit_round_trip
                    (query_giving (commit_text (lit "Jane Doe") (lit "dev@realmail.org")
                                     (lit "fix: bug")))
                    (lit "HEAD") (lit "abc1234") (lit "Jane Doe") (lit "dev@realmail.org")
                    (lit "fix: bug")
                    ltac:(vm_compute; intuition discriminate)
                    ltac:(vm_compute; intuition discriminate)
                    ltac:(vm_compute; intuition discriminate)
                    eq_refl)).
    + discriminate.
    + intros [t H]. apply (f_equal (@rev ascii)) in H. rewrite rev_app_distr in H.
      discriminate H.
Defined.

Lemma main_too_few_fields_witness :
  script (query_giving (lit "abc1234" ++ [LF] ++ lit "Jane Doe" ++ [LF]))
    stripspace_same no_diff (lit "validate-commit.py") (lit "HEAD")
  = ([Spawn (show_cmd (lit "HEAD")) None; Traceback ValueError], 1%Z).
Proof.
  apply (main_too_few_fields
           (query_giving (lit "abc1234" ++ [LF] ++ lit "Jane Doe" ++ [LF]))
           stripspace_same no_diff (lit "validate-commit.py") (lit "HEAD")
           (lit "abc1234" ++ [LF] ++ lit "Jane Doe" ++ [LF])).
  - reflexivity.
  - vm_compute. lia.
Defined.

